(** * libportal: the USB portal client (usb.c, usbsession.c)

    A shallow embedding of the asynchronous USB calls of libportal and of the
    USB session object, with the properties of its specification.

    The bus transport (GDBus), the main loop, GCancellable, GTask and GVariant
    are external to the sources; they appear here through the calls the
    sources make on them and the callbacks they deliver.  Messages are typed
    GVariant values, and [g_variant_get] and [g_variant_iter_next] check the
    format strings the sources hand them, as GLib does.  A variable that is
    read before it has been assigned holds a value the caller of the function
    supplies. *)

From Stdlib Require Import Ascii.
From stdpp Require Import gmap strings list pretty.

(** ** GVariant values and [a{sv}] dictionaries *)

Inductive GVariant :=
  | VBool (b : bool)        (* "b" *)
  | VHandle (h : Z)         (* "h", index of a file descriptor *)
  | VString (s : string)    (* "s" *)
  | VUint32 (u : Z).        (* "u" *)

Abbreviation vardict := (gmap string GVariant).

(** One element of an [a(sa{sv})] array: a device id and its dictionary. *)
Abbreviation device_entry := (string * gmap string GVariant)%type.

(** [g_variant_lookup (dict, key, "b", &out)]: [Some b] when the key is present
    with a boolean, otherwise the call returns FALSE and leaves [out]. *)
Definition g_variant_lookup_b (dict : vardict) (key : string) : option bool :=
  match dict !! key with
  | Some (VBool b) => Some b
  | _ => None
  end.

Definition g_variant_lookup_h (dict : vardict) (key : string) : option Z :=
  match dict !! key with
  | Some (VHandle h) => Some h
  | _ => None
  end.

Definition g_variant_lookup_s (dict : vardict) (key : string) : option string :=
  match dict !! key with
  | Some (VString s) => Some s
  | _ => None
  end.

(** ** Messages: GVariant values with their types *)

(** A GVariant as it arrives in a signal or a method reply. *)
#[local] Unset Elimination Schemes.
Inductive Wire :=
  | WBool (b : bool)                         (* b *)
  | WHandle (h : Z)                          (* h *)
  | WString (s : string)                     (* s *)
  | WUint32 (u : Z)                          (* u *)
  | WObjectPath (p : string)                 (* o *)
  | WVariant (w : Wire)                      (* v *)
  | WEntry (k v : Wire)                      (* {kv} *)
  | WArray (element_type : string) (children : list Wire)
  | WTuple (children : list Wire).
#[local] Set Elimination Schemes.

(** [g_variant_get_type_string] *)
Fixpoint type_of (w : Wire) : string :=
  match w with
  | WBool _ => "b"
  | WHandle _ => "h"
  | WString _ => "s"
  | WUint32 _ => "u"
  | WObjectPath _ => "o"
  | WVariant _ => "v"
  | WEntry k v => "{" +:+ type_of k +:+ type_of v +:+ "}"
  | WArray element_type _ => "a" +:+ element_type
  | WTuple children =>
      "(" +:+ (fix items (ws : list Wire) : string :=
                 match ws with
                 | [] => ""
                 | w :: ws => type_of w +:+ items ws
                 end) children +:+ ")"
  end.

Definition wire_of_value (v : GVariant) : Wire :=
  match v with
  | VBool b => WBool b
  | VHandle h => WHandle h
  | VString s => WString s
  | VUint32 u => WUint32 u
  end.

(** An [a{sv}] dictionary, a [(sa{sv})] entry and an [a(sa{sv})] array as
    messages. *)
Definition wire_of_dict (d : vardict) : Wire :=
  WArray "{sv}"
    (map (fun kv : string * GVariant =>
            WEntry (WString kv.1) (WVariant (wire_of_value kv.2)))
         (map_to_list d)).

Definition wire_of_entry (e : device_entry) : Wire :=
  WTuple [WString e.1; wire_of_dict e.2].

Definition wire_of_devices (es : list device_entry) : Wire :=
  WArray "(sa{sv})" (map wire_of_entry es).

(** The other way round, for the values a format string has accepted. *)
Definition value_of_wire (w : Wire) : option GVariant :=
  match w with
  | WVariant (WBool b) => Some (VBool b)
  | WVariant (WHandle h) => Some (VHandle h)
  | WVariant (WString s) => Some (VString s)
  | WVariant (WUint32 u) => Some (VUint32 u)
  | _ => None
  end.

Definition dict_of_wire (w : Wire) : vardict :=
  match w with
  | WArray _ children =>
      list_to_map
        (omap (fun child =>
                 match child with
                 | WEntry (WString k) v => pair k <$> value_of_wire v
                 | _ => None
                 end) children)
  | _ => ∅
  end.

(** [g_variant_n_children] and [g_variant_get_child_value]: the children of
    a container; [None] for a value that is not one. *)
Definition children_of (w : Wire) : option (list Wire) :=
  match w with
  | WArray _ children => Some children
  | WTuple children => Some children
  | WEntry k v => Some [k; v]
  | WVariant w => Some [w]
  | _ => None
  end.

(** ** GVariant type strings and format strings (gvarianttype.c, gvariant.c)

    The scanners cover the characters the sources use: the basic types,
    [v], [a], [m], tuples and dictionary entries, and in format strings
    [@] and [&]. *)

Fixpoint char_in (c : ascii) (s : string) : bool :=
  match s with
  | EmptyString => false
  | String c' s => Ascii.eqb c c' || char_in c s
  end.

(** [g_variant_type_string_scan]: one complete type at the head of [s]; the
    type and what follows it.  [type_items_scan] reads the items of a tuple
    up to and including its closing parenthesis. *)
Fixpoint type_string_scan (fuel : nat) (s : string) : option (string * string) :=
  match fuel, s with
  | S fuel, String c rest =>
      if char_in c "bynqiuxthdsogv" then Some (String c "", rest)
      else if char_in c "am" then
        '(t, rest) ← type_string_scan fuel rest;
        Some (String c t, rest)
      else if Ascii.eqb c "("%char then
        '(ts, rest) ← type_items_scan fuel rest;
        Some ("(" +:+ ts +:+ ")", rest)
      else if Ascii.eqb c "{"%char then
        match rest with
        | String k rest =>
            if char_in k "bynqiuxthdsog" then
              '(t, rest) ← type_string_scan fuel rest;
              match rest with
              | String c' rest =>
                  if Ascii.eqb c' "}"%char
                  then Some ("{" +:+ String k t +:+ "}", rest)
                  else None
              | EmptyString => None
              end
            else None
        | EmptyString => None
        end
      else None
  | _, _ => None
  end
with type_items_scan (fuel : nat) (s : string) : option (string * string) :=
  match fuel, s with
  | S fuel, String c rest =>
      if Ascii.eqb c ")"%char then Some ("", rest)
      else
        '(t, rest) ← type_string_scan fuel s;
        '(ts, rest) ← type_items_scan fuel rest;
        Some (t +:+ ts, rest)
  | _, _ => None
  end.

(** [g_variant_format_string_scan] together with
    [g_variant_format_string_scan_type]: one complete format at the head of
    [s]; the type it stands for and what follows it. *)
Fixpoint format_string_scan (fuel : nat) (s : string)
  : option (string * string) :=
  match fuel, s with
  | S fuel, String c rest =>
      if char_in c "bynqiuxthdsogv" then Some (String c "", rest)
      else if Ascii.eqb c "m"%char then
        '(t, rest) ← format_string_scan fuel rest;
        Some (String c t, rest)
      else if Ascii.eqb c "a"%char then
        '(t, rest) ← type_string_scan fuel rest;
        Some (String c t, rest)
      else if Ascii.eqb c "@"%char then
        type_string_scan fuel rest
      else if Ascii.eqb c "&"%char then
        match rest with
        | String c' rest =>
            if char_in c' "sog" then Some (String c' "", rest) else None
        | EmptyString => None
        end
      else if Ascii.eqb c "("%char then
        '(ts, rest) ← format_items_scan fuel rest;
        Some ("(" +:+ ts +:+ ")", rest)
      else if Ascii.eqb c "{"%char then
        '(k, rest) ←
          match rest with
          | String c' rest' =>
              if Ascii.eqb c' "&"%char then
                match rest' with
                | String c'' rest'' =>
                    if char_in c'' "sog" then Some (c'', rest'') else None
                | EmptyString => None
                end
              else if Ascii.eqb c' "@"%char then
                match rest' with
                | String c'' rest'' =>
                    if char_in c'' "bynqiuxthdsog" then Some (c'', rest'')
                    else None
                | EmptyString => None
                end
              else if char_in c' "bynqiuxthdsog" then Some (c', rest')
              else None
          | EmptyString => None
          end;
        '(t, rest) ← format_string_scan fuel rest;
        match rest with
        | String c' rest =>
            if Ascii.eqb c' "}"%char
            then Some ("{" +:+ String k t +:+ "}", rest)
            else None
        | EmptyString => None
        end
      else None
  | _, _ => None
  end
with format_items_scan (fuel : nat) (s : string) : option (string * string) :=
  match fuel, s with
  | S fuel, String c rest =>
      if Ascii.eqb c ")"%char then Some ("", rest)
      else
        '(t, rest) ← format_string_scan fuel s;
        '(ts, rest) ← format_items_scan fuel rest;
        Some (t +:+ ts, rest)
  | _, _ => None
  end.

(** [valid_format_string (format_string, TRUE, value)] of gvariant.c: the
    string is one complete format and nothing more, and [value], when there
    is one, has the type of the format. *)
Definition valid_format_string (format_string : string) (value : option Wire)
  : bool :=
  match format_string_scan (S (String.length format_string)) format_string with
  | Some (type, EmptyString) =>
      match value with
      | Some v => bool_decide (type_of v = type)
      | None => true
      end
  | _ => false
  end.

(** [g_variant_get (value, format_string, ...)]: the values to store through
    the arguments, one per item of the format.  A format string that is not
    valid for [value] is refused ([g_return_if_fail]): a critical message is
    logged and nothing is stored. *)
Definition g_variant_get (value : Wire) (format_string : string)
  : option (list Wire) :=
  if valid_format_string format_string (Some value)
  then Some (match value with
             | WTuple children => children
             | _ => [value]
             end)
  else None.
Arguments g_variant_get : simpl never.

(** ** Variables that are read before they are assigned *)

(** What an uninitialised pointer variable holds: NULL, bits that point at
    nothing, or by accident the address of an object that is alive. *)
Inductive Pointer (A : Type) :=
  | null
  | wild
  | live (a : A).
Arguments null {A}.
Arguments wild {A}.
Arguments live {A} a.

Inductive Fault :=
  | UseAfterFree            (* the UsbCall is read or written after g_free *)
  | InvalidStore (p : Z)    (* a store through an integer taken as an address *)
  | MismatchedStore         (* a value stored through a pointer to a variable
                               of another size, or through an argument that
                               was not passed *)
  | Indeterminate           (* an uninitialised pointer is dereferenced,
                               unreferenced or freed *)
  | NotAContainer           (* the children of a value that has none *)
  | BuilderEnded.           (* a GVariantBuilder is used after
                               g_variant_builder_end *)

(** The cleanup of a [g_autoptr] variable, [if (p) unref (p)], on a variable
    that was never assigned. *)
Definition g_autoptr_cleanup {A} (p : Pointer A) : option Fault :=
  match p with
  | null => None
  | _ => Some Indeterminate
  end.

(** ** Acquired devices (usb.c, XdpUsbDevice) *)

Record XdpUsbDevice := {
  id : string;
  success : bool;
  fd : Z;
  error : option string;    (* NULL when there is no message *)
}.

Definition xdp_usb_device_new (id : string) (fd : Z) : XdpUsbDevice :=
  {| id := id; success := true; fd := fd; error := None |}.

Definition xdp_usb_device_error_new (id : string) (error : option string)
  : XdpUsbDevice :=
  {| id := id; success := false; fd := (-1)%Z; error := error |}.

(** The body of the [while (g_variant_iter_next ...)] loop of
    [append_variant_to_fd_list]: the three lookups start from
    [error = NULL], [fd = -1], [success = FALSE]. *)
Definition device_of_entry (e : device_entry) : XdpUsbDevice :=
  let '(id, device) := e in
  let error := g_variant_lookup_s device "error" in
  let fd := default (-1)%Z (g_variant_lookup_h device "fd") in
  let success := default false (g_variant_lookup_b device "success") in
  if success then xdp_usb_device_new id fd
  else xdp_usb_device_error_new id error.

(** [g_slist_append] on a list pointer; NULL is the empty list. *)
Definition g_slist_append {A} (l : Pointer (list A)) (x : A)
  : Fault + Pointer (list A) :=
  match l with
  | null => inr (live [x])
  | live l => inr (live (l ++ [x]))
  | wild => inl Indeterminate
  end.

(** The [while (g_variant_iter_next (iter, "s&a{sv}", &id, &device))] loop.
    [g_variant_iter_next] checks its format string against the next child
    like [g_variant_get] and returns FALSE when it is refused. *)
Fixpoint append_entries (fd_list : Pointer (list XdpUsbDevice))
    (iter : list Wire) {struct iter} : Fault + Pointer (list XdpUsbDevice) :=
  match iter with
  | [] => inr fd_list
  | child :: iter =>
      match g_variant_get child "s&a{sv}" with
      | None => inr fd_list
      | Some [WString id; device] =>
          match g_slist_append fd_list
                  (device_of_entry (id, dict_of_wire device)) with
          | inl f => inl f
          | inr fd_list => append_entries fd_list iter
          end
      | Some _ => inl MismatchedStore
      end
  end.

(** What the uninitialised [g_autoptr] locals of [append_variant_to_fd_list]
    hold when it is entered. *)
Record AppendLocals := {
  device_slot : Pointer Wire;          (* g_autoptr(GVariant) device *)
  iter_slot : Pointer (list Wire);     (* g_autoptr(GVariantIter) iter *)
}.

(** [append_variant_to_fd_list].  [g_return_val_if_fail (fd_list_variant,
    fd_list)] returns with [iter] and [device] unassigned; after the loop
    [iter] has been assigned and [device] has not, unless an entry was
    read.  The cleanups run in the reverse order of the declarations. *)
Definition append_variant_to_fd_list (locals : AppendLocals)
    (fd_list : Pointer (list XdpUsbDevice)) (fd_list_variant : Pointer Wire)
  : Fault + Pointer (list XdpUsbDevice) :=
  match fd_list_variant with
  | null =>
      match g_autoptr_cleanup (iter_slot locals),
            g_autoptr_cleanup (device_slot locals) with
      | Some f, _ => inl f
      | None, Some f => inl f
      | None, None => inr fd_list
      end
  | wild => inl Indeterminate              (* g_variant_iter_new *)
  | live v =>
      match children_of v with
      | None => inl NotAContainer
      | Some iter =>
          match append_entries fd_list iter with
          | inl f => inl f
          | inr fd_list' =>
              match g_autoptr_cleanup (device_slot locals) with
              | Some f => inl f
              | None => inr fd_list'
              end
          end
      end
  end.

(** ** The finishing query (usb.c, xdp_portal_usb_finish_acquire_devices) *)

Inductive GIOErrorEnum :=
  | G_IO_ERROR_FAILED
  | G_IO_ERROR_CANCELLED
  | G_IO_ERROR_INVALID_ARGUMENT
  | G_DBUS_ERROR (name : string).   (* any error the bus reports *)

Record GError := { code : GIOErrorEnum; message : string }.

(** What GDBus reports for a method reply whose body does not have the type
    the caller asked for (GDBus's message names the method as well). *)
Definition unexpected_reply_type (returned expected : string) : GError :=
  {| code := G_IO_ERROR_INVALID_ARGUMENT;
     message := "Method returned type '" +:+ returned
                +:+ "', but expected '" +:+ expected +:+ "'" |}.

(** The [reply_type] argument of [g_dbus_connection_call] and
    [g_dbus_connection_call_sync]: a reply whose body has another type
    becomes an error. *)
Definition check_reply_type (reply_type : option string)
    (reply : GError + Wire) : GError + Wire :=
  match reply, reply_type with
  | inr body, Some expected =>
      if bool_decide (type_of body = expected) then inr body
      else inl (unexpected_reply_type (type_of body) expected)
  | _, _ => reply
  end.

(** A stack-allocated GVariantBuilder: [g_variant_builder_end] clears it, and
    it may not be used again before it is initialised again. *)
Inductive GVariantBuilder := builder_open | builder_ended.

(** What the uninitialised locals of one iteration of the loop hold. *)
Record IterationLocals := {
  fd_list_variant_slot : Pointer Wire;   (* GVariant *fd_list_variant *)
  append_locals : AppendLocals;           (* those of the callee *)
}.

(** What the function hands back: the list, the content of [*error], and the
    number of round trips it made. *)
Record FinishResult := {
  fd_list : Pointer (list XdpUsbDevice);
  error_out : option GError;
  round_trips : nat;
}.

Inductive Run (A : Type) :=
  | Returned (a : A)
  | OutOfFuel
  | Faulted (f : Fault).
Arguments Returned {A} a.
Arguments OutOfFuel {A}.
Arguments Faulted {A} f.

Module Finish.
Section Loop.
(** [call_sync n] is what the broker answers to the [n]-th
    [g_dbus_connection_call_sync] of the loop: an error, or the body of a
    reply.  [locals n] is what the uninitialised locals of the [n]-th
    iteration hold. *)
Variable call_sync : nat -> GError + Wire.
Variable locals : nat -> IterationLocals.

(** The [while (!finished)] loop; [fuel] bounds the number of iterations.
    [options] is initialised once, before the loop, and ended in every
    iteration.  A NULL [result] skips the body of the [if] and goes round
    again.  [finished_variant] starts FALSE in every iteration. *)
Fixpoint loop (fuel : nat) (n : nat) (options : GVariantBuilder)
    (fd_list : Pointer (list XdpUsbDevice)) (error : option GError)
  : Run FinishResult :=
  match fuel with
  | O => OutOfFuel
  | S fuel =>
      match options with
      | builder_ended => Faulted BuilderEnded
      | builder_open =>
          match check_reply_type (Some "(s(sa{sv})b)") (call_sync n) with
          | inr result =>
              match g_variant_get result "s(sa{sv})@b" with
              | Some _ =>
                  (* three values for the two arguments that were passed *)
                  Faulted MismatchedStore
              | None =>
                  let fd_list_variant := fd_list_variant_slot (locals n) in
                  let finished_variant := false in
                  match append_variant_to_fd_list
                          (append_locals (locals n)) fd_list
                          fd_list_variant with
                  | inl f => Faulted f
                  | inr fd_list =>
                      if finished_variant
                      then Returned {| fd_list := fd_list;
                                       error_out := error;
                                       round_trips := S n |}
                      else loop fuel (S n) builder_ended fd_list error
                  end
              end
          | inl e =>
              loop fuel (S n) builder_ended fd_list
                   (Some (default e error))
          end
      end
  end.

(** [fd_list] is declared without an initialiser: the loop is entered with
    whatever the variable holds. *)
Definition xdp_portal_usb_finish_acquire_devices
    (fd_list_slot : Pointer (list XdpUsbDevice)) (fuel : nat)
  : Run FinishResult :=
  loop fuel 0 builder_open fd_list_slot None.
End Loop.
End Finish.

(** ** Device requests (usb.c, XdpUsbDeviceAcquireRequest) *)

Record XdpUsbDeviceAcquireRequest := {
  request_id : string;      (* the field [id] of the source *)
  writable : bool;
}.

Definition xdp_usb_device_acquire_request_new (id : string) (writable : bool)
  : XdpUsbDeviceAcquireRequest :=
  {| request_id := id; writable := writable |}.

Definition xdp_usb_device_acquire_request_copy
    (source : XdpUsbDeviceAcquireRequest) : XdpUsbDeviceAcquireRequest :=
  xdp_usb_device_acquire_request_new (request_id source) (writable source).

(** [add_to_variant]: one [(s@a{sv})] element of the request payload. *)
Definition add_to_variant (dev : XdpUsbDeviceAcquireRequest) : device_entry :=
  (request_id dev, <["writable" := VBool (writable dev)]> ∅).

(** ** The request-based method calls (usb.c, UsbCall) *)

(** The caller's window; opaque to usb.c. *)
Inductive XdpParent := xdp_parent (window : nat).

Record UsbCall := {
  signal_id : nat;                      (* Request::Response subscription, 0 if none *)
  request_path : option string;         (* NULL until acquire_devices sets it *)
  cancelled_id : nat;                   (* handler on "cancelled", 0 if none *)
  parent : option XdpParent;
  parent_handle : option string;
  devices : list XdpUsbDeviceAcquireRequest;
}.

(** The handlers usb.c connects to the cancellable's "cancelled" signal and
    the completion callbacks it hands to [g_dbus_connection_call]. *)
Inductive CancelHook := usb_call_cancelled_hook | acquire_cancelled_hook.

#[global] Instance CancelHook_eq_dec : EqDecision CancelHook.
Proof. solve_decision. Defined.
Inductive Callback := session_call_returned_cb | call_returned_cb.

Inductive Method :=
  | Close                               (* on REQUEST_INTERFACE, no arguments *)
  | CreateSession (options : vardict)
  | AcquireDevices (parent_handle : string) (devices : list device_entry)
                   (options : vardict).

(** What a call hands to its GTask. *)
Inductive TaskResult :=
  | session_pointer (session_path : string)   (* the new XdpUsbSession *)
  | fds_pointer (fds : list Z)             (* the GSList of descriptors *)
  | task_error (e : GError).

(** Everything usb.c does that the rest of the process can see, in order. *)
Inductive Action :=
  | signal_subscribe (id : nat) (object_path : string)
  | signal_unsubscribe (id : nat)
  | signal_connect (id : nat) (hook : CancelHook)
  | signal_handler_disconnect (id : nat)
  | dbus_call (object_path : option string) (method : Method)
  | parent_export
  | task_return (r : TaskResult)
  | free_call.

Record GCancellable := {
  is_cancelled : bool;
  handlers : list (nat * CancelHook);
}.

(** The part of the process a call lives in. *)
Record World := {
  call : option UsbCall;                (* None once usb_call_free has run *)
  sender : string;                      (* call->portal->sender *)
  bus_signals : list (nat * string);    (* live Response subscriptions *)
  cancellable : option GCancellable;    (* g_task_get_cancellable (call->task) *)
  pending : option (Callback * bool);   (* bus call in flight: its callback,
                                           and whether it carries the cancellable *)
  reply_type : option string;           (* the reply type that call asked for *)
  next_id : nat;
  trace : list Action;
}.

(** State and fault monad of the callbacks. *)
Definition M (A : Type) : Type := World -> Fault + (A * World).

Definition pure {A} (a : A) : M A := fun w => inr (a, w).

Definition bind {A B} (m : M A) (k : A -> M B) : M B :=
  fun w => match m w with
           | inl f => inl f
           | inr (a, w') => k a w'
           end.

Declare Scope usb_scope.
Delimit Scope usb_scope with usb.
Notation "'let*' x ':=' m 'in' k" := (bind m (fun x => k))
  (at level 10, x name, m at level 100, k at level 200) : usb_scope.
Notation "m '>>' k" := (bind m (fun _ => k))
  (at level 100, k at level 200, right associativity) : usb_scope.
Open Scope usb_scope.

Definition when (b : bool) (m : M unit) : M unit := if b then m else pure tt.

Definition nonzero (n : nat) : bool := negb (n =? 0).

Definition fault {A} (f : Fault) : M A := fun _ => inl f.

Definition set_call (c : option UsbCall) (w : World) : World :=
  {| call := c; sender := sender w;
     bus_signals := bus_signals w; cancellable := cancellable w;
     pending := pending w; reply_type := reply_type w;
     next_id := next_id w; trace := trace w |}.

Definition set_bus_signals (s : list (nat * string)) (w : World) : World :=
  {| call := call w; sender := sender w;
     bus_signals := s; cancellable := cancellable w;
     pending := pending w; reply_type := reply_type w;
     next_id := next_id w; trace := trace w |}.

Definition set_cancellable (c : option GCancellable) (w : World) : World :=
  {| call := call w; sender := sender w;
     bus_signals := bus_signals w; cancellable := c;
     pending := pending w; reply_type := reply_type w;
     next_id := next_id w; trace := trace w |}.

Definition set_pending (p : option (Callback * bool)) (w : World) : World :=
  {| call := call w; sender := sender w;
     bus_signals := bus_signals w; cancellable := cancellable w;
     pending := p; reply_type := reply_type w;
     next_id := next_id w; trace := trace w |}.

Definition set_reply_type (t : option string) (w : World) : World :=
  {| call := call w; sender := sender w;
     bus_signals := bus_signals w; cancellable := cancellable w;
     pending := pending w; reply_type := t;
     next_id := next_id w; trace := trace w |}.

Definition set_next_id (n : nat) (w : World) : World :=
  {| call := call w; sender := sender w;
     bus_signals := bus_signals w; cancellable := cancellable w;
     pending := pending w; reply_type := reply_type w;
     next_id := n; trace := trace w |}.

Definition emit (a : Action) : M unit := fun w =>
  inr (tt, {| call := call w; sender := sender w;
              bus_signals := bus_signals w; cancellable := cancellable w;
              pending := pending w; reply_type := reply_type w;
              next_id := next_id w; trace := trace w ++ [a] |}).

Definition modify (f : World -> World) : M unit := fun w => inr (tt, f w).

Definition get {A} (f : World -> A) : M A := fun w => inr (f w, w).

(** Reading [call->field]: a fault once the call has been freed. *)
Definition deref : M UsbCall := fun w =>
  match call w with
  | Some c => inr (c, w)
  | None => inl UseAfterFree
  end.

(** Writing [call->field]. *)
Definition assign (f : UsbCall -> UsbCall) : M unit :=
  let* c := deref in modify (set_call (Some (f c))).

Definition with_signal_id (n : nat) (c : UsbCall) : UsbCall :=
  {| signal_id := n; request_path := request_path c;
     cancelled_id := cancelled_id c; parent := parent c;
     parent_handle := parent_handle c; devices := devices c |}.

Definition with_request_path (p : option string) (c : UsbCall) : UsbCall :=
  {| signal_id := signal_id c; request_path := p;
     cancelled_id := cancelled_id c; parent := parent c;
     parent_handle := parent_handle c; devices := devices c |}.

Definition with_cancelled_id (n : nat) (c : UsbCall) : UsbCall :=
  {| signal_id := signal_id c; request_path := request_path c;
     cancelled_id := n; parent := parent c;
     parent_handle := parent_handle c; devices := devices c |}.

Definition with_parent_handle (h : option string) (c : UsbCall) : UsbCall :=
  {| signal_id := signal_id c; request_path := request_path c;
     cancelled_id := cancelled_id c; parent := parent c;
     parent_handle := h; devices := devices c |}.

(** *** The GLib and GDBus calls usb.c makes *)

(** Subscription and handler ids are never 0. *)
Definition fresh_id : M nat :=
  let* n := get next_id in
  modify (set_next_id (S n)) >>
  pure (S n).

Definition g_dbus_connection_signal_subscribe (object_path : string) : M nat :=
  let* id := fresh_id in
  let* subs := get bus_signals in
  modify (set_bus_signals (subs ++ [(id, object_path)])) >>
  emit (signal_subscribe id object_path) >>
  pure id.

Definition g_dbus_connection_signal_unsubscribe (id : nat) : M unit :=
  let* subs := get bus_signals in
  modify (set_bus_signals (filter (fun s => s.1 <> id) subs)) >>
  emit (signal_unsubscribe id).

Definition g_signal_connect (hook : CancelHook) : M nat :=
  let* id := fresh_id in
  let* c := get cancellable in
  modify (set_cancellable
            (option_map (fun c => {| is_cancelled := is_cancelled c;
                                     handlers := handlers c ++ [(id, hook)] |}) c)) >>
  emit (signal_connect id hook) >>
  pure id.

Definition g_signal_handler_disconnect (id : nat) : M unit :=
  let* c := get cancellable in
  modify (set_cancellable
            (option_map (fun c => {| is_cancelled := is_cancelled c;
                                     handlers := filter (fun h => h.1 <> id)
                                                        (handlers c) |}) c)) >>
  emit (signal_handler_disconnect id).

(** [g_dbus_connection_call]: the call is recorded; with a callback it stays in
    flight until the main loop delivers its completion, which checks the body
    of the reply against [reply_type].  (GDBus sends nothing for an object
    path that is NULL.) *)
Definition g_dbus_connection_call (object_path : option string)
    (method : Method) (reply_type : option string)
    (callback : option Callback) (with_cancellable : bool)
  : M unit :=
  emit (dbus_call object_path method) >>
  match callback with
  | Some cb =>
      modify (set_pending (Some (cb, with_cancellable))) >>
      modify (set_reply_type reply_type)
  | None => pure tt
  end.

(** [g_dbus_connection_call_finish] for a reply that carries an object path
    (the reply of CreateSession and of AcquireDevices): its body is the tuple
    of that path. *)
Definition g_dbus_connection_call_finish (reply_type : option string)
    (ret : GError + string) : GError + string :=
  match ret with
  | inl e => inl e
  | inr p =>
      match check_reply_type reply_type (inr (WTuple [WObjectPath p])) with
      | inl e => inl e
      | inr _ => inr p
      end
  end.
Arguments g_dbus_connection_call_finish : simpl never.

(** The cleanup of a [g_autoptr] local that was never assigned. *)
Definition cleanup {A} (p : Pointer A) : M unit :=
  match g_autoptr_cleanup p with
  | Some f => fault f
  | None => pure tt
  end.

(** [g_task_return_pointer (call->task, ...)] and [g_task_return_error
    (call->task, ...)]: the task is read from the call. *)
Definition g_task_return (r : TaskResult) : M unit :=
  let* _ := deref in emit (task_return r).

Definition g_task_return_new_error (code : GIOErrorEnum) (message : string)
  : M unit :=
  g_task_return (task_error {| code := code; message := message |}).

Definition g_free_call : M unit :=
  modify (set_call None) >> emit free_call.

(** *** The callbacks of usb.c *)

(** [g_variant_lookup (device, "fd", "h", fd)] as the Response handler writes
    it: the out-argument is the value of [fd], not its address.  When the key
    is present with a handle, GLib stores the handle through that argument
    unless it is NULL; the variable [fd] itself is never written. *)
Definition lookup_fd_through_value (device : vardict) (fd : Z) : Fault + bool :=
  match g_variant_lookup_h device "fd" with
  | Some _ => if bool_decide (fd = 0%Z) then inr true else inl (InvalidStore fd)
  | None => inr false
  end.

(** The [while (g_variant_iter_next (iter, "&s@a{sv}", &device_id, &device))]
    loop of [acquire_response_received].  [g_variant_iter_next] checks its
    format string against the next child like [g_variant_get] and returns
    FALSE when it is refused. *)
Fixpoint response_device_list (device_list : list Z) (iter : list Wire)
    {struct iter} : Fault + list Z :=
  match iter with
  | [] => inr device_list
  | child :: iter =>
      match g_variant_get child "&s@a{sv}" with
      | None => inr device_list
      | Some [WString device_id; device] =>
          let device := dict_of_wire device in
          let fd := (-1)%Z in
          if default false (g_variant_lookup_b device "success") then
            match lookup_fd_through_value device fd with
            | inl f => inl f
            | inr true => response_device_list (device_list ++ [fd]) iter
            | inr false => response_device_list device_list iter
            end
          else response_device_list device_list iter
      | Some _ => inl MismatchedStore
      end
  end.

(** What the uninitialised locals of [acquire_response_received] and of
    [acquire_devices] hold when the function is entered. *)
Record ResponseLocals := {
  response_slot : Z;                    (* guint32 response *)
  response_devices_slot : Pointer Wire; (* GVariant *devices *)
}.

Record AcquireLocals := {
  options_slot : Pointer Wire;          (* g_autoptr(GVariant) options *)
  devices_slot : Pointer Wire;          (* g_autoptr(GVariant) devices *)
}.

Section Callbacks.
(** Constants of portal-private.h, which is not among the sources. *)
Variable PORTAL_OBJECT_PATH : string.
Variable REQUEST_PATH_PREFIX : string.

Definition usb_call_free : M unit :=
  let* c := deref in
  when (nonzero (signal_id c))
       (g_dbus_connection_signal_unsubscribe (signal_id c)) >>
  when (nonzero (cancelled_id c))
       (g_signal_handler_disconnect (cancelled_id c)) >>
  g_free_call.

Definition usb_call_cancelled_cb : M unit :=
  let* c := deref in
  g_dbus_connection_call (request_path c) Close None None false.

(** The [if (call->cancelled_id)] block the completion callbacks share. *)
Definition disconnect_cancelled : M unit :=
  let* c := deref in
  when (nonzero (cancelled_id c))
       (g_signal_handler_disconnect (cancelled_id c) >>
        assign (with_cancelled_id 0)).

Definition usb_session_call_returned (ret : GError + string) : M unit :=
  match ret with
  | inl error =>
      disconnect_cancelled >>
      g_task_return (task_error error)
  | inr session_path =>
      g_task_return (session_pointer session_path)
  end >>
  usb_call_free.

Definition usb_call_returned (ret : GError + string) : M unit :=
  match ret with
  | inl error =>
      disconnect_cancelled >>
      g_task_return (task_error error) >>
      usb_call_free
  | inr _ => pure tt
  end.

(** "portal%d" of a [g_random_int_range (0, G_MAXINT)] draw. *)
Definition handle_token (random : Z) : string := "portal" +:+ pretty random.

Definition create_session (random : Z) : M unit :=
  let* _ := deref in
  let* cancellable := get cancellable in
  when (bool_decide (is_Some cancellable))
       (let* id := g_signal_connect usb_call_cancelled_hook in
        assign (with_cancelled_id id)) >>
  let session_token := handle_token random in
  g_dbus_connection_call (Some PORTAL_OBJECT_PATH)
    (CreateSession (<["session_handle_token" := VString session_token]> ∅))
    None (Some session_call_returned_cb) (bool_decide (is_Some cancellable)).

(** [acquire_response_received].  [response] and [devices] have no
    initialiser; [g_variant_get] is handed the address of [response], a
    guint32, for the item [s] of its format. *)
Definition acquire_response_received (parameters : Wire)
    (locals : ResponseLocals) : M unit :=
  disconnect_cancelled >>
  match g_variant_get parameters "(s@a(sa{sv}))" with
  | Some _ => fault MismatchedStore
  | None =>
      let response := response_slot locals in
      let devices := response_devices_slot locals in
      (if bool_decide (response = 0%Z) then
         (* g_variant_iter_new (devices) *)
         match devices with
         | live devices =>
             match children_of devices with
             | Some iter =>
                 match response_device_list [] iter with
                 | inl f => fault f
                 | inr device_list => g_task_return (fds_pointer device_list)
                 end
             | None => fault NotAContainer
             end
         | _ => fault Indeterminate
         end
       else if bool_decide (response = 1%Z) then
         g_task_return_new_error G_IO_ERROR_CANCELLED
           "Acquire USB devices canceled"
       else
         g_task_return_new_error G_IO_ERROR_FAILED
           "Acquire USB devices failed") >>
      usb_call_free
  end.

Definition acquire_cancelled_cb : M unit :=
  let* c := deref in
  g_dbus_connection_call (request_path c) Close None None false >>
  g_task_return_new_error G_IO_ERROR_CANCELLED
    "Acquire USB devices call canceled by caller" >>
  usb_call_free.

(** [acquire_devices].  [options] and [devices] are [g_autoptr] locals
    without initialiser: the early return runs their cleanups on what the
    variables hold, in the reverse order of the declarations; on the other
    path both are assigned before the function returns. *)
Definition acquire_devices (locals : AcquireLocals) (random : Z) : M unit :=
  let* c := deref in
  match parent_handle c with
  | None =>
      (* call->parent->parent_export (call->parent, parent_exported, call) *)
      emit parent_export >>
      cleanup (devices_slot locals) >>
      cleanup (options_slot locals)
  | Some handle =>
      let token := handle_token random in
      let* sender := get sender in
      let path := REQUEST_PATH_PREFIX +:+ sender +:+ "/" +:+ token in
      assign (with_request_path (Some path)) >>
      let* id := g_dbus_connection_signal_subscribe path in
      assign (with_signal_id id) >>
      let* cancellable := get cancellable in
      when (bool_decide (is_Some cancellable))
           (let* id := g_signal_connect acquire_cancelled_hook in
            assign (with_cancelled_id id)) >>
      let devices := map add_to_variant (devices c) in
      let options := <["handle_token" := VString token]> ∅ in
      g_dbus_connection_call (Some PORTAL_OBJECT_PATH)
        (AcquireDevices handle devices options)
        (Some "o") (Some call_returned_cb) false
  end.

Definition parent_exported (handle : option string) (locals : AcquireLocals)
    (random : Z) : M unit :=
  assign (with_parent_handle handle) >>
  acquire_devices locals random.

(** [g_new0 (UsbCall, 1)] *)
Definition g_new0_UsbCall : UsbCall :=
  {| signal_id := 0; request_path := None; cancelled_id := 0;
     parent := None; parent_handle := None; devices := [] |}.

Definition xdp_portal_usb_create_session (random : Z) : M unit :=
  modify (set_call (Some g_new0_UsbCall)) >>
  create_session random.

Definition xdp_portal_usb_acquire_devices (parent : option XdpParent)
    (devices : list XdpUsbDeviceAcquireRequest) (locals : AcquireLocals)
    (random : Z) : M unit :=
  modify (set_call (Some
    {| signal_id := 0; request_path := None; cancelled_id := 0;
       parent := parent;
       parent_handle := match parent with
                        | Some _ => None
                        | None => Some ""
                        end;
       devices := map xdp_usb_device_acquire_request_copy devices |})) >>
  acquire_devices locals random.

(** *** The main loop *)

(** What the main loop can deliver to a call: the callbacks usb.c has
    registered, each with what its uninitialised locals hold and the
    random number it draws.  The completion of a method call is that of
    the call made last, with the object path of a successful reply. *)
Inductive Event :=
  | Cancelled                          (* g_cancellable_cancel *)
  | ParentExported (handle : option string) (locals : AcquireLocals)
                   (random : Z)
  | CallReturned (ret : GError + string)
  | Response (object_path : string) (parameters : Wire)
             (locals : ResponseLocals).

Definition run_hook (h : nat * CancelHook) : M unit :=
  (* a handler disconnected during the emission is not called *)
  let* c := get cancellable in
  let connected :=
    match c with
    | Some c => bool_decide (h ∈ handlers c)
    | None => false
    end in
  when connected
       match h.2 with
       | usb_call_cancelled_hook => usb_call_cancelled_cb
       | acquire_cancelled_hook => acquire_cancelled_cb
       end.

Fixpoint run_hooks (hs : list (nat * CancelHook)) : M unit :=
  match hs with
  | [] => pure tt
  | h :: hs => run_hook h >> run_hooks hs
  end.

(** A call that carries a cancelled cancellable completes with
    G_IO_ERROR_CANCELLED whatever the bus answered. *)
Definition operation_was_cancelled : GError :=
  {| code := G_IO_ERROR_CANCELLED; message := "Operation was cancelled" |}.

Definition step (ev : Event) : M unit :=
  match ev with
  | Cancelled =>
      let* c := get cancellable in
      match c with
      | Some c =>
          if is_cancelled c then pure tt
          else
            modify (set_cancellable
                      (Some {| is_cancelled := true;
                               handlers := handlers c |})) >>
            run_hooks (handlers c)
      | None => pure tt
      end
  | ParentExported handle locals random =>
      parent_exported handle locals random
  | CallReturned ret =>
      let* p := get pending in
      match p with
      | Some (cb, with_cancellable) =>
          let* c := get cancellable in
          let* reply_type := get reply_type in
          let ret :=
            if with_cancellable
               && default false (option_map is_cancelled c)
            then inl operation_was_cancelled
            else g_dbus_connection_call_finish reply_type ret in
          modify (set_pending None) >>
          match cb with
          | session_call_returned_cb => usb_session_call_returned ret
          | call_returned_cb => usb_call_returned ret
          end
      | None => pure tt
      end
  | Response object_path parameters locals =>
      let* subs := get bus_signals in
      when (bool_decide (object_path ∈ subs.*2))
           (acquire_response_received parameters locals)
  end.

Fixpoint run (evs : list Event) : M unit :=
  match evs with
  | [] => pure tt
  | ev :: evs => step ev >> run evs
  end.
End Callbacks.

(** A process in which no call has been started. *)
Definition idle (sender : string) (cancellable : option bool) (next_id : nat)
  : World :=
  {| call := None; sender := sender; bus_signals := [];
     cancellable := option_map (fun b => {| is_cancelled := b; handlers := [] |})
                               cancellable;
     pending := None; reply_type := None; next_id := next_id; trace := [] |}.

(** The results handed to the GTask so far. *)
Definition resolutions (tr : list Action) : list TaskResult :=
  omap (fun a => match a with task_return r => Some r | _ => None end) tr.

(** A call whose cancellation handler is connected to a cancellable that has
    not fired. *)
Definition hooked (hook : CancelHook) (c : UsbCall) (w : World) : Prop :=
  call w = Some c /\ cancelled_id c <> 0 /\
  cancellable w = Some {| is_cancelled := false;
                          handlers := [(cancelled_id c, hook)] |}.

(** What a Response that [g_variant_get] has refused hands to the task: the
    branch is taken on what the variable [response] holds, and the success
    branch iterates over what the variable [devices] holds. *)
Definition response_outcome (locals : ResponseLocals) : Fault + TaskResult :=
  if bool_decide (response_slot locals = 0%Z) then
    match response_devices_slot locals with
    | live devices =>
        match children_of devices with
        | Some _ => inr (fds_pointer [])
        | None => inl NotAContainer
        end
    | _ => inl Indeterminate
    end
  else if bool_decide (response_slot locals = 1%Z) then
    inr (task_error {| code := G_IO_ERROR_CANCELLED;
                       message := "Acquire USB devices canceled" |})
  else
    inr (task_error {| code := G_IO_ERROR_FAILED;
                       message := "Acquire USB devices failed" |}).

Definition cancelled_by_caller : TaskResult :=
  task_error {| code := G_IO_ERROR_CANCELLED;
                message := "Acquire USB devices call canceled by caller" |}.

(** A call that has no parent handle yet and has done nothing but ask for
    the export. *)
Definition awaiting_export (w : World) : Prop :=
  (exists c, call w = Some c /\ parent_handle c = None)
  /\ pending w = None /\ bus_signals w = []
  /\ (forall g, cancellable w = Some g -> handlers g = []).

Definition is_acquire_request (a : Action) : Prop :=
  exists object_path handle devices options,
    a = dbus_call object_path (AcquireDevices handle devices options).

Definition is_cancel (ev : Event) : bool :=
  match ev with
  | Cancelled => true
  | _ => false
  end.

Definition is_export_callback (ev : Event) : Prop :=
  exists handle locals random, ev = ParentExported handle locals random.

(** Every AcquireDevices request of a trace comes after a subscription to the
    Response signal on the request path made of the request's handle token,
    and that subscription has not been dropped in between. *)
Definition subscribed_before_request (prefix sender : string)
    (tr : list Action) : Prop :=
  forall i object_path handle devices options,
    tr !! i = Some (dbus_call object_path (AcquireDevices handle devices options)) ->
    exists j id token,
      j < i
      /\ options !! "handle_token" = Some (VString token)
      /\ tr !! j = Some (signal_subscribe id (prefix +:+ sender +:+ "/" +:+ token))
      /\ forall k, j < k < i -> tr !! k <> Some (signal_unsubscribe id).

(** A computation that keeps the sender and whose additions to the trace
    have every AcquireDevices request after its subscription. *)
Definition tidy (prefix : string) {A} (m : M A) : Prop :=
  forall w a w',
    m w = inr (a, w') ->
    sender w' = sender w
    /\ exists new, trace w' = trace w ++ new
                   /\ subscribed_before_request prefix (sender w) new.

(** ** The USB session (usbsession.c, usbsession-private.h) *)

Module UsbSession.
Section Objects.
(** session.c and session-private.h are not among the sources.  Of an
    XdpSession usbsession.c touches the backlink [usb_session], the
    reference count and the weak references; everything else the generic
    session keeps (its id, its state, its own subscriptions) is
    [SessionPrivate].  [xdp_session_close] is taken as a function on that
    part: what it does to the generic session is left open, and it is
    assumed to leave the USB session, the references and the DeviceEvents
    subscription to usbsession.c. *)
Variable SessionPrivate : Type.
Variable xdp_session_close : SessionPrivate -> SessionPrivate.

Record XdpSession := {
  usb_session : option nat;           (* weak ref to the XdpUsbSession *)
  ref_count : nat;
  weak_refs : list nat;               (* data of the parent_session_destroy
                                         notifications *)
  private : SessionPrivate;
}.

Record XdpUsbSession := {
  parent_session : option nat;        (* strong ref *)
  signal_id : nat;
}.

Inductive Action :=
  | signal_subscribe (id : nat)       (* DeviceEvents *)
  | signal_unsubscribe (id : nat)
  | g_critical (message : string).

(** The objects of the process, by address, and the bus subscriptions. *)
Record Objects := {
  sessions : gmap nat XdpSession;
  usb_sessions : gmap nat XdpUsbSession;
  bus_signals : list nat;
  next_id : nat;
  log : list Action;
}.

Definition set_sessions (s : gmap nat XdpSession) (w : Objects) : Objects :=
  {| sessions := s; usb_sessions := usb_sessions w;
     bus_signals := bus_signals w; next_id := next_id w; log := log w |}.

Definition set_usb_sessions (u : gmap nat XdpUsbSession) (w : Objects)
  : Objects :=
  {| sessions := sessions w; usb_sessions := u;
     bus_signals := bus_signals w; next_id := next_id w; log := log w |}.

Definition emit (a : Action) (w : Objects) : Objects :=
  {| sessions := sessions w; usb_sessions := usb_sessions w;
     bus_signals := bus_signals w; next_id := next_id w;
     log := log w ++ [a] |}.

Definition g_dbus_connection_signal_subscribe (w : Objects) : nat * Objects :=
  let id := S (next_id w) in
  (id, emit (signal_subscribe id)
         {| sessions := sessions w; usb_sessions := usb_sessions w;
            bus_signals := bus_signals w ++ [id]; next_id := id;
            log := log w |}).

Definition g_dbus_connection_signal_unsubscribe (id : nat) (w : Objects)
  : Objects :=
  emit (signal_unsubscribe id)
    {| sessions := sessions w; usb_sessions := usb_sessions w;
       bus_signals := filter (fun s => s <> id) (bus_signals w);
       next_id := next_id w; log := log w |}.

Definition with_usb_session (u : option nat) (s : XdpSession) : XdpSession :=
  {| usb_session := u; ref_count := ref_count s; weak_refs := weak_refs s;
     private := private s |}.

Definition with_ref_count (n : nat) (s : XdpSession) : XdpSession :=
  {| usb_session := usb_session s; ref_count := n; weak_refs := weak_refs s;
     private := private s |}.

Definition with_weak_refs (l : list nat) (s : XdpSession) : XdpSession :=
  {| usb_session := usb_session s; ref_count := ref_count s; weak_refs := l;
     private := private s |}.

Definition with_private (p : SessionPrivate) (s : XdpSession) : XdpSession :=
  {| usb_session := usb_session s; ref_count := ref_count s;
     weak_refs := weak_refs s; private := p |}.

Definition with_parent_session (p : option nat) (s : XdpUsbSession)
  : XdpUsbSession :=
  {| parent_session := p; signal_id := signal_id s |}.

Definition xdp_usb_session_init : XdpUsbSession :=
  {| parent_session := None; signal_id := 0 |}.

(** [parent_session_destroy (data, old_session)] *)
Definition parent_session_destroy (data : nat) (w : Objects) : Objects :=
  let w := emit (g_critical
    "XdpSession destroyed before XdpUsbSesssion, you lost count of your session refs") w in
  set_usb_sessions (alter (with_parent_session None) data (usb_sessions w)) w.

(** [g_object_unref] of an XdpSession: the last reference runs the weak
    notifications and releases the object. *)
Definition g_object_unref (p : nat) (w : Objects) : option Objects :=
  s ← sessions w !! p;
  if bool_decide (ref_count s <= 1) then
    let w := foldl (fun w data => parent_session_destroy data w) w (weak_refs s) in
    Some (set_sessions (delete p (sessions w)) w)
  else
    Some (set_sessions (<[p := with_ref_count (ref_count s - 1) s]> (sessions w)) w).

(** Removes one notification registered with [data]. *)
Fixpoint remove_first (data : nat) (l : list nat) : list nat :=
  match l with
  | [] => []
  | x :: l => if bool_decide (x = data) then l else x :: remove_first data l
  end.

(** [xdp_usb_session_finalize]; [None] when it reads an object that is gone. *)
Definition xdp_usb_session_finalize (object : nat) (w : Objects)
  : option Objects :=
  session ← usb_sessions w !! object;
  match parent_session session with
  | None =>
      Some (emit (g_critical
        "XdpSession destroyed before XdpInputCaptureSesssion, you lost count of your session refs") w)
  | Some parent =>
      _ ← sessions w !! parent;
      let w := if bool_decide (signal_id session <> 0)
               then g_dbus_connection_signal_unsubscribe (signal_id session) w
               else w in
      (* g_object_weak_unref (parent_session, parent_session_destroy, session) *)
      let w := set_sessions
                 (alter (fun s => with_weak_refs (remove_first object (weak_refs s)) s)
                        parent (sessions w)) w in
      (* session->parent_session->usb_session = NULL *)
      let w := set_sessions
                 (alter (with_usb_session None) parent (sessions w)) w in
      (* g_clear_pointer (&session->parent_session, g_object_unref) *)
      let w := set_usb_sessions
                 (alter (with_parent_session None) object (usb_sessions w)) w in
      g_object_unref parent w
  end.

(** Dropping the last reference to the XdpUsbSession: finalize, then the
    instance is released. *)
Definition destroy (object : nat) (w : Objects) : option Objects :=
  w ← xdp_usb_session_finalize object w;
  Some (set_usb_sessions (delete object (usb_sessions w)) w).

(** [xdp_usb_session_close]: [xdp_session_close (session->parent_session)]. *)
Definition xdp_usb_session_close (session : nat) (w : Objects)
  : option Objects :=
  s ← usb_sessions w !! session;
  match parent_session s with
  | None => Some w          (* g_return_if_fail (XDP_IS_SESSION (session)) *)
  | Some parent =>
      p ← sessions w !! parent;
      Some (set_sessions
              (<[parent := with_private (xdp_session_close (private p)) p]>
                 (sessions w)) w)
  end.

Definition xdp_usb_session_get_session (session : nat) (w : Objects)
  : option nat :=
  s ← usb_sessions w !! session; parent_session s.

(** [_xdp_usb_session_new]; [fresh_private] is the generic session
    [_xdp_session_new] builds. *)
Definition _xdp_usb_session_new (fresh_private : SessionPrivate) (w : Objects)
  : option (nat * Objects) :=
  let parent := fresh (dom (sessions w)) in
  let w := set_sessions
             (<[parent := {| usb_session := None; ref_count := 1;
                             weak_refs := []; private := fresh_private |}]>
                (sessions w)) w in
  let session := fresh (dom (usb_sessions w)) in
  let w := set_usb_sessions (<[session := xdp_usb_session_init]> (usb_sessions w)) w in
  (* parent_session->usb_session = session; g_object_weak_ref; g_object_ref *)
  let w := set_sessions
             (alter (fun s => with_ref_count (S (ref_count s))
                                (with_weak_refs (weak_refs s ++ [session])
                                   (with_usb_session (Some session) s)))
                    parent (sessions w)) w in
  let w := set_usb_sessions
             (alter (with_parent_session (Some parent)) session (usb_sessions w)) w in
  let '(id, w) := g_dbus_connection_signal_subscribe w in
  let w := set_usb_sessions
             (alter (fun s => {| parent_session := parent_session s;
                                 signal_id := id |}) session (usb_sessions w)) w in
  (* the g_autoptr(XdpSession) goes out of scope *)
  w ← g_object_unref parent w;
  Some (session, w).

(** A USB session as [_xdp_usb_session_new] leaves it. *)
Record Active (session parent id : nat) (w : Objects) : Prop := {
  active_session :
    usb_sessions w !! session =
      Some {| parent_session := Some parent; signal_id := id |};
  active_parent : exists s, sessions w !! parent = Some s
                            /\ usb_session s = Some session
                            /\ weak_refs s = [session];
  active_id : id <> 0;
  active_subscribed : id ∈ bus_signals w;
}.

(** What is left of the parent once the USB session has let go of it and
    other references remain. *)
Definition released (s : XdpSession) : XdpSession :=
  {| usb_session := None; ref_count := ref_count s - 1; weak_refs := [];
     private := private s |}.

Definition empty : Objects :=
  {| sessions := ∅; usb_sessions := ∅; bus_signals := []; next_id := 0;
     log := [] |}.
End Objects.

Arguments usb_session {_} _.
Arguments ref_count {_} _.
Arguments weak_refs {_} _.
Arguments private {_} _.
Arguments sessions {_} _.
Arguments usb_sessions {_} _.
Arguments bus_signals {_} _.
Arguments next_id {_} _.
Arguments log {_} _.
Arguments set_sessions {_} _ _.
Arguments set_usb_sessions {_} _ _.
Arguments emit {_} _ _.
Arguments g_dbus_connection_signal_subscribe {_} _.
Arguments g_dbus_connection_signal_unsubscribe {_} _ _.
Arguments with_usb_session {_} _ _.
Arguments with_ref_count {_} _ _.
Arguments with_weak_refs {_} _ _.
Arguments with_private {_} _ _.
Arguments parent_session_destroy {_} _ _.
Arguments g_object_unref {_} _ _.
Arguments xdp_usb_session_finalize {_} _ _.
Arguments destroy {_} _ _.
Arguments xdp_usb_session_close {_} _ _ _.
Arguments xdp_usb_session_get_session {_} _ _.
Arguments _xdp_usb_session_new {_} _ _.
Arguments Active {_} _ _ _ _.
Arguments released {_} _.
Arguments empty {_}.
End UsbSession.

(** ** The state of the generic session *)

Module SessionSpec.
(** Modelled from the spec: the states of a session and [xdp_session_close]
  are defined in session.c and session-private.h, which are not among the
  sources.  The spec (4.3) gives the lifecycle Uninitialized, Creating,
  Active, Closed: a session that has been created is Active, and closing it
  moves it to Closed. *)
Inductive State := Active | Closed.

Definition xdp_session_close (s : State) : State := Closed.
End SessionSpec.

(** ** The device requests in memory (usb.c, lines 59-97 and 497)

    [XdpUsbDeviceAcquireRequest] values above are what the structs hold; here
    the structs, their id strings and the GPtrArray are cells of a heap, so
    that copies and the caller's objects can be told apart. *)

Module Mem.
Inductive cell :=
  | chars (s : string)                                  (* a C string *)
  | acquire_request (id : option nat) (writable : bool) (* the struct *)
  | ptr_array (pdata : list nat).                       (* a GPtrArray *)

Abbreviation heap := (gmap nat cell).

(** [g_malloc]: a cell at an address not in use. *)
Definition alloc (c : cell) (h : heap) : nat * heap :=
  let l := fresh (dom h) in (l, <[l := c]> h).

(** [g_strdup]; NULL gives NULL. *)
Definition g_strdup (str : option nat) (h : heap) : option (option nat * heap) :=
  match str with
  | None => Some (None, h)
  | Some p =>
      match h !! p with
      | Some (chars s) => let '(l, h) := alloc (chars s) h in Some (Some l, h)
      | _ => None
      end
  end.

Definition xdp_usb_device_acquire_request_new (id : option nat)
    (writable : bool) (h : heap) : option (nat * heap) :=
  let '(dev, h) := alloc (acquire_request None false) h in   (* g_new0 *)
  let h := <[dev := acquire_request None writable]> h in
  '(s, h) ← g_strdup id h;
  Some (dev, <[dev := acquire_request s writable]> h).

Definition xdp_usb_device_acquire_request_copy (source : nat) (h : heap)
  : option (nat * heap) :=
  match h !! source with
  | Some (acquire_request id writable) =>
      xdp_usb_device_acquire_request_new id writable h
  | _ => None
  end.

Definition xdp_usb_device_acquire_request_free (device : nat) (h : heap)
  : option heap :=
  match h !! device with
  | Some (acquire_request id _) =>
      let h := match id with Some s => delete s h | None => h end in
      Some (delete device h)
  | _ => None
  end.

Fixpoint copy_elements (pdata : list nat) (h : heap)
  : option (list nat * heap) :=
  match pdata with
  | [] => Some ([], h)
  | p :: pdata =>
      '(q, h) ← xdp_usb_device_acquire_request_copy p h;
      '(qs, h) ← copy_elements pdata h;
      Some (q :: qs, h)
  end.

(** [g_ptr_array_copy (devices, usb_device_acquire_request_copy, NULL)] *)
Definition g_ptr_array_copy (array : nat) (h : heap) : option (nat * heap) :=
  match h !! array with
  | Some (ptr_array pdata) =>
      let '(new_array, h) := alloc (ptr_array []) h in
      '(qs, h) ← copy_elements pdata h;
      Some (new_array, <[new_array := ptr_array qs]> h)
  | _ => None
  end.

(** The value a struct in memory holds. *)
Definition read_request (h : heap) (p : nat)
  : option XdpUsbDeviceAcquireRequest :=
  match h !! p with
  | Some (acquire_request (Some s) w) =>
      match h !! s with
      | Some (chars str) => Some {| request_id := str; writable := w |}
      | _ => None
      end
  | _ => None
  end.

Definition read_array (h : heap) (array : nat)
  : option (list XdpUsbDeviceAcquireRequest) :=
  match h !! array with
  | Some (ptr_array pdata) => mapM (read_request h) pdata
  | _ => None
  end.

(** [g_ptr_array_foreach (call->devices, add_to_variant, &devices_builder)]:
    the device array of the AcquireDevices request. *)
Definition devices_variant (h : heap) (call_devices : nat)
  : option (list device_entry) :=
  map add_to_variant <$> read_array h call_devices.

(** The caller releases its array with its elements. *)
Fixpoint free_elements (pdata : list nat) (h : heap) : option heap :=
  match pdata with
  | [] => Some h
  | p :: pdata =>
      h ← xdp_usb_device_acquire_request_free p h; free_elements pdata h
  end.

Definition g_ptr_array_free (array : nat) (h : heap) : option heap :=
  match h !! array with
  | Some (ptr_array pdata) =>
      h ← free_elements pdata h; Some (delete array h)
  | _ => None
  end.

(** [q] is a struct holding [v] that was not in the heap [h0], and neither
    was its id string. *)
Definition copy_of (h0 h : heap) (q : nat) (v : XdpUsbDeviceAcquireRequest)
  : Prop :=
  exists s,
    h0 !! q = None /\ h0 !! s = None
    /\ h !! q = Some (acquire_request (Some s) (writable v))
    /\ h !! s = Some (chars (request_id v)).

(** A caller's array of two requests. *)
Definition two_requests : heap :=
  <[0 := ptr_array [1; 3]]>
    (<[1 := acquire_request (Some 2) true]>
       (<[2 := chars "usb:001"]>
          (<[3 := acquire_request (Some 4) false]>
             (<[4 := chars "usb:002"]> ∅)))).
End Mem.

(** ** The two asynchronous operations and what a run leaves of them *)

Inductive Operation :=
  | CreateSessionCall (random : Z)
  | AcquireDevicesCall (parent : option XdpParent)
      (devices : list XdpUsbDeviceAcquireRequest) (locals : AcquireLocals)
      (random : Z).

(** The entry point of an operation. *)
Definition start (PORTAL_OBJECT_PATH REQUEST_PATH_PREFIX : string)
    (op : Operation) : M unit :=
  match op with
  | CreateSessionCall random =>
      xdp_portal_usb_create_session PORTAL_OBJECT_PATH random
  | AcquireDevicesCall parent devices locals random =>
      xdp_portal_usb_acquire_devices PORTAL_OBJECT_PATH REQUEST_PATH_PREFIX
        parent devices locals random
  end.

(** The method calls of a trace, in order. *)
Definition bus_calls (tr : list Action) : list (option string * Method) :=
  omap (fun a => match a with dbus_call p m => Some (p, m) | _ => None end) tr.

(** The task is resolved exactly when the call has been released, and then
    once. *)
Definition accounted (w : World) : Prop :=
  match call w with
  | Some _ => resolutions (trace w) = []
  | None => exists r, resolutions (trace w) = [r]
  end.

(** The export callbacks that carry a NULL handle and whose locals hold
    NULL. *)
Definition is_null_export (ev : Event) : bool :=
  match ev with
  | ParentExported None {| options_slot := null; devices_slot := null |} _ =>
      true
  | _ => false
  end.

Definition is_response (ev : Event) : Prop :=
  exists object_path parameters locals,
    ev = Response object_path parameters locals.

(** What the completion of the CreateSession call hands to the task. *)
Definition session_outcome (cancellable : option bool) (ret : GError + string)
  : TaskResult :=
  match cancellable, ret with
  | Some true, _ => task_error operation_was_cancelled
  | _, inl error => task_error error
  | _, inr session_path => session_pointer session_path
  end.
(** *** Sample broker scripts *)

Definition no_reply : GError :=
  {| code := G_DBUS_ERROR "org.freedesktop.DBus.Error.NoReply";
     message := "Message recipient disconnected from message bus" |}.

Definition granted (fd : Z) : vardict :=
  <["success" := VBool true]> (<["fd" := VHandle fd]> ∅).

Definition denied (msg : string) : vardict :=
  <["success" := VBool false]> (<["error" := VString msg]> ∅).

(** The body of an AcquireDevicesFinish reply, of type [(s(sa{sv})b)]. *)
Definition finish_reply (device_id : string) (device : vardict)
    (finished : bool) : Wire :=
  WTuple [WString device_id; wire_of_entry (device_id, device);
          WBool finished].

(** Every call fails. *)
Definition never_replies (n : nat) : GError + Wire := inl no_reply.

(** Every call answers the finished page of one granted device. *)
Definition one_finished_page (n : nat) : GError + Wire :=
  inr (finish_reply "usb:001" (granted 7) true).

(** Locals that happen to hold NULL. *)
Definition null_append_locals : AppendLocals :=
  {| device_slot := null; iter_slot := null |}.

Definition null_iteration_locals (n : nat) : IterationLocals :=
  {| fd_list_variant_slot := null; append_locals := null_append_locals |}.

(** *** Sample values for the constants of portal-private.h and a sample
    process *)

Definition sample_object_path : string := "/org/freedesktop/portal/desktop".
Definition sample_request_prefix : string :=
  "/org/freedesktop/portal/desktop/request/".
Definition sample_request_path : string :=
  "/org/freedesktop/portal/desktop/request/1_42/portal7".

Definition one_device : list XdpUsbDeviceAcquireRequest :=
  [xdp_usb_device_acquire_request_new "usb:001" true].

(** Locals of [acquire_devices] that happen to hold NULL, and locals that do
    not. *)
Definition null_locals : AcquireLocals :=
  {| options_slot := null; devices_slot := null |}.

Definition wild_locals : AcquireLocals :=
  {| options_slot := null; devices_slot := wild |}.

(** The process after [xdp_portal_usb_acquire_devices] without a parent
    window, with a cancellable, and the draw 7. *)
Definition sample_in_flight : World :=
  match xdp_portal_usb_acquire_devices sample_object_path sample_request_prefix
          None one_device wild_locals 7 (idle "1_42" (Some false) 0) with
  | inr (_, w) => w
  | inl _ => idle "1_42" (Some false) 0
  end.

Definition sample_call : UsbCall :=
  {| signal_id := 1; request_path := Some sample_request_path;
     cancelled_id := 2; parent := None; parent_handle := Some "";
     devices := one_device |}.

(** A USB session fresh from [_xdp_usb_session_new], the generic session's
    private part being a flag. *)
Definition sample_usb_session : UsbSession.Objects bool :=
  match UsbSession._xdp_usb_session_new false UsbSession.empty with
  | Some (_, w) => w
  | None => UsbSession.empty
  end.

(** A call that has its (empty) parent handle and has not sent anything. *)
Definition sample_ready : World :=
  set_call (Some {| signal_id := 0; request_path := None; cancelled_id := 0;
                    parent := None; parent_handle := Some "";
                    devices := one_device |})
           (idle "1_42" (Some false) 0).

(** A Response as the protocol has it: a status and the results. *)
Definition response_parameters (status : Z) (devices : list device_entry)
  : Wire :=
  WTuple [WUint32 status;
          WArray "{sv}" [WEntry (WString "devices")
                                (WVariant (wire_of_devices devices))]].

(** Locals of [acquire_response_received]: [response] holds 1 and
    [devices] holds NULL. *)
Definition response_locals_one : ResponseLocals :=
  {| response_slot := 1; response_devices_slot := null |}.

(** A USB session over a generic session in the state Active, of which the
    caller holds a reference of its own (taken after
    [xdp_usb_session_get_session]). *)
Definition sample_shared_session : UsbSession.Objects SessionSpec.State :=
  match UsbSession._xdp_usb_session_new SessionSpec.Active UsbSession.empty with
  | Some (_, w) =>
      UsbSession.set_sessions
        (alter (UsbSession.with_ref_count 2) 0 (UsbSession.sessions w)) w
  | None => UsbSession.empty
  end.

(** The sample AcquireDevices call after the caller has cancelled it. *)
Definition sample_cancelled : World :=
  match step sample_object_path sample_request_prefix Cancelled
             sample_in_flight with
  | inr (_, w) => w
  | inl _ => sample_in_flight
  end.

(** The process after [xdp_portal_usb_acquire_devices] with a parent window,
    the locals of [acquire_devices] holding NULL: the call waits for the
    window's handle. *)
Definition sample_awaiting : World :=
  match xdp_portal_usb_acquire_devices sample_object_path sample_request_prefix
          (Some (xdp_parent 1)) one_device null_locals 7
          (idle "1_42" (Some false) 0) with
  | inr (_, w) => w
  | inl _ => idle "1_42" (Some false) 0
  end.
(** ** The format strings of usb.c *)

(** The four format strings usb.c hands to [g_variant_get] and
    [g_variant_iter_next] on messages.  Three of them are two or three
    formats in a row, which GLib refuses whatever the value; the fourth is
    the format of a [(sa(sa{sv}))]. *)
Lemma format_strings_of_usb_c :
  format_string_scan 12 "s(sa{sv})@b" = Some ("s", "(sa{sv})@b")
  /\ format_string_scan 8 "s&a{sv}" = Some ("s", "&a{sv}")
  /\ format_string_scan 9 "&s@a{sv}" = Some ("s", "@a{sv}")
  /\ format_string_scan 14 "(s@a(sa{sv}))" = Some ("(sa(sa{sv}))", "").
Proof. by vm_compute. Qed.

Lemma finish_format_refused (result : Wire) :
  g_variant_get result "s(sa{sv})@b" = None.
Proof. reflexivity. Qed.

Lemma entry_format_refused (child : Wire) :
  g_variant_get child "s&a{sv}" = None.
Proof. reflexivity. Qed.

Lemma response_entry_format_refused (child : Wire) :
  g_variant_get child "&s@a{sv}" = None.
Proof. reflexivity. Qed.

(** [g_variant_get] with the format of [acquire_response_received] stores
    something only for a message of type [(sa(sa{sv}))]. *)
Lemma response_format (parameters : Wire) :
  g_variant_get parameters "(s@a(sa{sv}))"
  = if bool_decide (type_of parameters = "(sa(sa{sv}))")
    then Some (match parameters with
               | WTuple children => children
               | _ => [parameters]
               end)
    else None.
Proof. reflexivity. Qed.

(** A Response as the protocol has it, a status and results, is refused. *)
Lemma response_format_refused (status : Z) (results : Wire) :
  g_variant_get (WTuple [WUint32 status; results]) "(s@a(sa{sv}))" = None.
Proof.
  rewrite response_format, bool_decide_eq_false_2; [done|].
  simpl. intros H. discriminate.
Qed.

(** The format checker accepts the reply of CreateSession. *)
Lemma object_path_format_accepted (p : string) :
  g_variant_get (WTuple [WObjectPath p]) "(&o)" = Some [WObjectPath p].
Proof. reflexivity. Qed.

(** ** Properties of the finishing query *)

(** The loop of [append_variant_to_fd_list] never runs its body. *)
Lemma append_entries_keeps fd_list iter :
  append_entries fd_list iter = inr fd_list.
Proof. destruct iter; reflexivity. Qed.

Lemma append_variant_to_fd_list_keeps locals fd_list fd_list_variant fd_list' :
  append_variant_to_fd_list locals fd_list fd_list_variant = inr fd_list' ->
  fd_list' = fd_list.
Proof.
  unfold append_variant_to_fd_list.
  destruct fd_list_variant as [| |v]; [|done|].
  - destruct (g_autoptr_cleanup (iter_slot locals)); [done|].
    destruct (g_autoptr_cleanup (device_slot locals)); [done|].
    by intros [= <-].
  - destruct (children_of v) as [iter|]; [|done].
    rewrite append_entries_keeps.
    destruct (g_autoptr_cleanup (device_slot locals)); [done|].
    by intros [= <-].
Qed.

Section FinishFacts.
Variable call_sync : nat -> GError + Wire.
Variable locals : nat -> IterationLocals.

(** No iteration ever sees [finished] set: the loop has no way out. *)
Lemma loop_never_returns : forall fuel n options fd_list error r,
  Finish.loop call_sync locals fuel n options fd_list error <> Returned r.
Proof.
  induction fuel as [|fuel IH]; intros n options fd_list error r; [done|].
  simpl. destruct options; [|done].
  destruct (check_reply_type _ (call_sync n)) as [e|result]; [apply IH|].
  rewrite ?finish_format_refused.
  destruct (append_variant_to_fd_list _ _ _); [done|]. apply IH.
Qed.

(** An iteration after the first one ends the builder a second time. *)
Lemma loop_builder_ended fuel n fd_list error :
  Finish.loop call_sync locals (S fuel) n builder_ended fd_list error
  = Faulted BuilderEnded.
Proof. reflexivity. Qed.

(** The first iteration goes round again or faults. *)
Lemma loop_faults fuel fd_list error :
  exists f,
    Finish.loop call_sync locals (S (S fuel)) 0 builder_open fd_list error
    = Faulted f.
Proof.
  simpl. destruct (check_reply_type _ (call_sync 0)) as [e|result]; [eauto|].
  rewrite ?finish_format_refused.
  destruct (append_variant_to_fd_list _ _ _); eauto.
Qed.
End FinishFacts.

(** C2 (the code departs from the claim): when the first synchronous
    [AcquireDevicesFinish] call fails, [xdp_portal_usb_finish_acquire_devices]
    does not abort and hands no error back: the loop has no branch for a
    NULL result, [finished] stays FALSE and the loop goes round again.  After
    the one iteration the function is still in the loop; the second
    iteration ends the [options] builder, which was initialised once before
    the loop, a second time; and for no number of iterations does the
    function return. *)
Theorem finish_acquire_devices_retries_failed_call
    (call_sync : nat -> GError + Wire) (locals : nat -> IterationLocals)
    (fd_list_slot : Pointer (list XdpUsbDevice)) (e : GError) :
  call_sync 0 = inl e ->
  Finish.xdp_portal_usb_finish_acquire_devices call_sync locals fd_list_slot 1
    = OutOfFuel
  /\ (forall fuel,
        Finish.xdp_portal_usb_finish_acquire_devices call_sync locals
          fd_list_slot (S (S fuel)) = Faulted BuilderEnded)
  /\ (forall fuel r,
        Finish.xdp_portal_usb_finish_acquire_devices call_sync locals
          fd_list_slot fuel <> Returned r).
Proof.
  intros Hfail. unfold Finish.xdp_portal_usb_finish_acquire_devices.
  split_and!.
  - simpl. by rewrite Hfail.
  - intros fuel. simpl. by rewrite Hfail.
  - intros fuel r. apply loop_never_returns.
Qed.

Lemma finish_acquire_devices_retries_failed_call_witness :
  Finish.xdp_portal_usb_finish_acquire_devices never_replies
    null_iteration_locals null 1 = OutOfFuel
  /\ (forall fuel,
        Finish.xdp_portal_usb_finish_acquire_devices never_replies
          null_iteration_locals null (S (S fuel)) = Faulted BuilderEnded)
  /\ (forall fuel r,
        Finish.xdp_portal_usb_finish_acquire_devices never_replies
          null_iteration_locals null fuel <> Returned r).
Proof.
  apply (finish_acquire_devices_retries_failed_call never_replies
           null_iteration_locals null no_reply).
  reflexivity.
Defined.

(** C3 (the code departs from the claim): when every page call succeeds
    with a reply of the type the function asks for, whatever the pages
    carry and whether or not they are marked finished,
    [xdp_portal_usb_finish_acquire_devices] returns no record at all.
    [g_variant_get] refuses the format string "s(sa{sv})@b", so neither the
    page nor [finished] is read from the reply; [append_variant_to_fd_list]
    is handed an unassigned variable and, whatever it is handed, appends
    nothing, its loop being ended by the refusal of "s&a{sv}"; the loop does
    not stop at a finished page, and its second iteration faults at the
    latest.  For no number of iterations does the function return. *)
Theorem finish_acquire_devices_collects_nothing
    (call_sync : nat -> GError + Wire) (locals : nat -> IterationLocals)
    (fd_list_slot : Pointer (list XdpUsbDevice)) :
  (forall n, exists body,
     call_sync n = inr body /\ type_of body = "(s(sa{sv})b)") ->
  (forall fuel r,
     Finish.xdp_portal_usb_finish_acquire_devices call_sync locals
       fd_list_slot fuel <> Returned r)
  /\ (forall fuel, exists f,
        Finish.xdp_portal_usb_finish_acquire_devices call_sync locals
          fd_list_slot (S (S fuel)) = Faulted f)
  /\ (fd_list_variant_slot (locals 0) = null ->
      append_locals (locals 0) = {| device_slot := null; iter_slot := null |} ->
      Finish.xdp_portal_usb_finish_acquire_devices call_sync locals
        fd_list_slot 1 = OutOfFuel)
  /\ (forall append_locals fd_list page fd_list',
        append_variant_to_fd_list append_locals fd_list (live page)
          = inr fd_list' ->
        fd_list' = fd_list).
Proof.
  intros Hpages. unfold Finish.xdp_portal_usb_finish_acquire_devices.
  split_and!.
  - intros fuel r. apply loop_never_returns.
  - intros fuel. apply loop_faults.
  - intros Hvariant Hlocals. simpl.
    destruct (Hpages 0) as (body & -> & Htype). simpl.
    rewrite Htype. simpl. rewrite Hvariant. simpl.
    unfold append_variant_to_fd_list. by rewrite Hlocals.
  - intros append_locals fd_list page fd_list'.
    apply append_variant_to_fd_list_keeps.
Qed.

Lemma finish_acquire_devices_collects_nothing_witness :
  (forall fuel r,
     Finish.xdp_portal_usb_finish_acquire_devices one_finished_page
       null_iteration_locals null fuel <> Returned r)
  /\ (forall fuel, exists f,
        Finish.xdp_portal_usb_finish_acquire_devices one_finished_page
          null_iteration_locals null (S (S fuel)) = Faulted f)
  /\ (fd_list_variant_slot (null_iteration_locals 0) = null ->
      append_locals (null_iteration_locals 0)
        = {| device_slot := null; iter_slot := null |} ->
      Finish.xdp_portal_usb_finish_acquire_devices one_finished_page
        null_iteration_locals null 1 = OutOfFuel)
  /\ (forall append_locals fd_list page fd_list',
        append_variant_to_fd_list append_locals fd_list (live page)
          = inr fd_list' ->
        fd_list' = fd_list).
Proof.
  apply (finish_acquire_devices_collects_nothing one_finished_page
           null_iteration_locals null).
  intros n. eexists. split; reflexivity.
Defined.

(** ** Properties of the asynchronous calls *)

Lemma resolutions_app tr1 tr2 :
  resolutions (tr1 ++ tr2) = resolutions tr1 ++ resolutions tr2.
Proof. apply omap_app. Qed.

Lemma filter_other_id {A} (id : nat) (x : A) :
  filter (fun h : nat * A => h.1 <> id) [(id, x)] = [].
Proof.
  rewrite filter_cons, decide_False; [done|]. simpl. intros H. by apply H.
Qed.

Lemma call_finish_unchecked (ret : GError + string) :
  g_dbus_connection_call_finish None ret = ret.
Proof. by destruct ret. Qed.

(** A reply body is a tuple; the reply type "o" that [acquire_devices] asks
    for is not one, so no reply has it. *)
Lemma call_finish_object_path (ret : GError + string) :
  g_dbus_connection_call_finish (Some "o") ret
  = inl (match ret with
         | inl e => e
         | inr _ => unexpected_reply_type "(o)" "o"
         end).
Proof. by destruct ret. Qed.

(** Unfolds the callbacks and the monad down to functions on worlds. *)
Ltac usb_unfold :=
  unfold xdp_portal_usb_acquire_devices, xdp_portal_usb_create_session,
    create_session, parent_exported, acquire_devices,
    acquire_response_received, acquire_cancelled_cb, usb_call_cancelled_cb,
    usb_call_returned, usb_session_call_returned, disconnect_cancelled,
    usb_call_free, run_hook,
    g_dbus_connection_signal_subscribe, g_dbus_connection_signal_unsubscribe,
    g_signal_connect, g_signal_handler_disconnect, g_dbus_connection_call,
    g_task_return_new_error, g_task_return, g_free_call, fresh_id, cleanup,
    bind, pure, get, modify, emit, when, fault, deref, assign in *.

Ltac usb_step := unfold step, run; repeat progress (usb_unfold; simpl in *).

Section CallFacts.
Variable PORTAL_OBJECT_PATH : string.
Variable REQUEST_PATH_PREFIX : string.

Abbreviation run := (run PORTAL_OBJECT_PATH REQUEST_PATH_PREFIX).
Abbreviation step := (step PORTAL_OBJECT_PATH REQUEST_PATH_PREFIX).
Abbreviation acquire_devices :=
  (acquire_devices PORTAL_OBJECT_PATH REQUEST_PATH_PREFIX).
Abbreviation parent_exported :=
  (parent_exported PORTAL_OBJECT_PATH REQUEST_PATH_PREFIX).
Abbreviation xdp_portal_usb_acquire_devices :=
  (xdp_portal_usb_acquire_devices PORTAL_OBJECT_PATH REQUEST_PATH_PREFIX).
Abbreviation xdp_portal_usb_create_session :=
  (xdp_portal_usb_create_session PORTAL_OBJECT_PATH).

Lemma nonzero_true n : n <> 0 -> nonzero n = true.
Proof. by destruct n. Qed.

(** Cancelling an AcquireDevices call in flight: Close on the request path,
    the cancellation error, and the call is released. *)
Lemma acquire_cancel_in_flight c w :
  hooked acquire_cancelled_hook c w ->
  exists w' rest,
    step Cancelled w = inr (tt, w')
    /\ trace w' = trace w ++ dbus_call (request_path c) Close
                   :: task_return cancelled_by_caller :: rest
    /\ resolutions rest = []
    /\ call w' = None
    /\ pending w' = pending w.
Proof.
  intros (Hcall & Hid & Hcanc).
  destruct w as [call0 sender0 subs canc pend rt nid tr]; simpl in *; subst.
  destruct c as [sid path hid par ph devs]; simpl in *.
  destruct hid as [|hid]; [done|].
  destruct sid as [|sid]; usb_step;
    (rewrite bool_decide_eq_true_2 by set_solver); usb_step;
    rewrite filter_other_id;
    eexists _, _; (split; [reflexivity|]); simpl;
    rewrite <- !app_assoc; simpl;
    (split; [reflexivity|]); eauto.
Qed.

(** With no handler connected, firing the cancellable does nothing a
    caller can see. *)
Lemma cancel_without_handlers w g :
  cancellable w = Some g -> handlers g = [] ->
  exists w', step Cancelled w = inr (tt, w')
             /\ trace w' = trace w /\ call w' = call w
             /\ pending w' = pending w /\ bus_signals w' = bus_signals w.
Proof.
  intros Hc Hh.
  destruct w as [call0 sender0 subs canc pend rt nid tr]; simpl in *; subst.
  destruct g as [b hs]; simpl in *; subst.
  destruct b; usb_step; eauto 10.
Qed.

Lemma response_device_list_keeps device_list iter :
  response_device_list device_list iter = inr device_list.
Proof. destruct iter; reflexivity. Qed.

(** A Response whose parameters [g_variant_get] refuses: the handler
    resolves with what the unassigned variables make it resolve with. *)
Lemma acquire_response_received_refused parameters locals w :
  g_variant_get parameters "(s@a(sa{sv}))" = None ->
  acquire_response_received parameters locals w =
    (disconnect_cancelled >>
     match response_outcome locals with
     | inl f => fault f
     | inr r => g_task_return r >> usb_call_free
     end) w.
Proof.
  intros Hget. unfold acquire_response_received, response_outcome.
  rewrite Hget. destruct locals as [response devs]; simpl.
  unfold bind at 1 3. destruct (disconnect_cancelled w) as [f|[[] w1]]; [done|].
  destruct (bool_decide (response = 0%Z)).
  - destruct devs as [| |v]; [done|done|].
    destruct (children_of v) as [iter|]; [|done].
    by rewrite response_device_list_keeps.
  - by destruct (bool_decide (response = 1%Z)).
Qed.

(** A Response of the type of the format string is stored through the
    address of [response]. *)
Lemma acquire_response_received_stored parameters locals w stored :
  g_variant_get parameters "(s@a(sa{sv}))" = Some stored ->
  acquire_response_received parameters locals w =
    (disconnect_cancelled >> fault MismatchedStore) w.
Proof.
  intros Hget. unfold acquire_response_received. by rewrite Hget.
Qed.

Lemma released_call_is_unhooked hook c w ev w1 :
  hooked hook c w ->
  step ev w = inr (tt, w1) ->
  call w1 = None ->
  exists g, cancellable w1 = Some g /\ handlers g = [].
Proof.
  intros (Hcall & Hid & Hcanc) Hstep Hfree.
  destruct w as [call0 sender0 subs canc pend rt nid tr]; simpl in *; subst.
  destruct c as [sid path hid par ph devs]; simpl in *.
  destruct hid as [|hid]; [done|].
  destruct ev as [|handle locals random|ret|object_path parameters locals].
  - destruct hook, sid as [|sid].
    all: usb_step.
    all: rewrite bool_decide_eq_true_2 in Hstep by set_solver.
    all: usb_step.
    all: try rewrite filter_other_id in Hstep.
    all: injection Hstep as <-; simpl in *; try discriminate; eauto.
  - destruct handle, locals as [[| |o] [| |d]]. all: usb_step.
    all: try discriminate Hstep.
    all: (injection Hstep as <-; discriminate).
  - unfold step in Hstep. unfold bind at 1, get at 1 in Hstep.
    simpl in Hstep.
    destruct pend as [[cb wc]|];
      [|injection Hstep as <-; discriminate].
    unfold bind at 1, get at 1 in Hstep. simpl in Hstep.
    unfold bind at 1, get at 1 in Hstep. simpl in Hstep.
    match type of Hstep with
    | context [if ?b then _ else g_dbus_connection_call_finish ?t ?r] =>
        destruct (if b then inl operation_was_cancelled
                  else g_dbus_connection_call_finish t r) as [e|p]
    end.
    all: destruct cb, sid as [|sid].
    all: usb_step.
    all: try rewrite filter_other_id in Hstep.
    all: (injection Hstep as <-; simpl in *; try discriminate;
      try rewrite filter_nil; eauto).
  - unfold step in Hstep. unfold bind at 1, get at 1 in Hstep. simpl in Hstep.
    destruct (decide (object_path ∈ subs.*2)) as [Hin|Hin];
      [rewrite bool_decide_eq_true_2 in Hstep by done
      |rewrite bool_decide_eq_false_2 in Hstep by done;
       injection Hstep as <-; discriminate].
    unfold when in Hstep.
    destruct (g_variant_get parameters "(s@a(sa{sv}))") as [stored|] eqn:Hget.
    { rewrite (acquire_response_received_stored _ _ _ _ Hget) in Hstep.
      usb_step. discriminate. }
    rewrite (acquire_response_received_refused _ _ _ Hget) in Hstep.
    destruct (response_outcome locals) as [f|r].
    { usb_step. discriminate. }
    destruct sid as [|sid].
    all: usb_step.
    all: rewrite filter_other_id in Hstep.
    all: injection Hstep as <-; simpl; rewrite ?filter_nil; eauto.
Qed.

(** Cancelling a CreateSession call in flight: the handler attempts Close on
    [call->request_path]; the call itself carries the cancellable, so its
    completion is the cancellation error, whatever the bus answers. *)
Lemma session_cancel_in_flight c w :
  hooked usb_call_cancelled_hook c w ->
  pending w = Some (session_call_returned_cb, true) ->
  exists w1,
    step Cancelled w = inr (tt, w1)
    /\ trace w1 = trace w ++ [dbus_call (request_path c) Close]
    /\ forall ret, exists w2 rest,
         step (CallReturned ret) w1 = inr (tt, w2)
         /\ trace w2 = trace w1 ++ rest
         /\ resolutions rest = [task_error operation_was_cancelled]
         /\ call w2 = None.
Proof.
  intros (Hcall & Hid & Hcanc) Hpend.
  destruct w as [call0 sender0 subs canc pend rt nid tr]; simpl in *; subst.
  destruct c as [sid path hid par ph devs]; simpl in *.
  destruct hid as [|hid]; [done|].
  usb_step. rewrite bool_decide_eq_true_2 by set_solver. usb_step.
  eexists; split; [reflexivity|]. split; [reflexivity|].
  intros ret. destruct sid as [|sid]; usb_step;
    rewrite filter_other_id; usb_step;
    eexists _, _; (split; [reflexivity|]); simpl;
    rewrite <- !app_assoc; simpl; (split; [reflexivity|]); eauto.
Qed.

(** C1 (the code departs from the claim): an AcquireDevices call cancelled
    while its method call is in flight is resolved and freed by
    [acquire_cancelled_cb], but the completion callback [usb_call_returned]
    stays registered with the freed call as its data; when the method call
    then fails, the callback reads and resolves the freed call. *)
Theorem cancelled_call_is_used_after_free c w e :
  hooked acquire_cancelled_hook c w ->
  pending w = Some (call_returned_cb, false) ->
  exists w',
    step Cancelled w = inr (tt, w')
    /\ resolutions (trace w') = resolutions (trace w) ++ [cancelled_by_caller]
    /\ call w' = None
    /\ pending w' = Some (call_returned_cb, false)
    /\ step (CallReturned (inl e)) w' = inl UseAfterFree.
Proof.
  intros Hhook Hpend.
  destruct (acquire_cancel_in_flight c w Hhook)
    as (w' & rest & Hstep & Htrace & Hrest & Hcall & Hpend').
  exists w'. split; [done|].
  split; [by rewrite Htrace, resolutions_app; simpl; rewrite Hrest|].
  split; [done|]. split; [congruence|].
  rewrite Hpend in Hpend'.
  destruct w' as [call0 sender0 subs canc pend rt nid tr]; simpl in *; subst.
  by destruct canc as [[]|].
Qed.

(** A Response that is refused, delivered to a live call: the task is
    resolved with the outcome of the unassigned variables and the call is
    released, or the handler faults. *)
Lemma response_resolves c w object_path parameters locals r :
  call w = Some c ->
  object_path ∈ (bus_signals w).*2 ->
  g_variant_get parameters "(s@a(sa{sv}))" = None ->
  response_outcome locals = inr r ->
  exists w' rest,
    step (Response object_path parameters locals) w = inr (tt, w')
    /\ trace w' = trace w ++ rest
    /\ resolutions rest = [r]
    /\ call w' = None.
Proof.
  intros Hcall Hsub Hget Hr.
  destruct w as [call0 sender0 subs canc pend rt nid tr]; simpl in *; subst.
  destruct c as [sid path hid par ph devs].
  unfold step, bind at 1, get at 1; simpl.
  rewrite bool_decide_eq_true_2 by done. unfold when.
  rewrite (acquire_response_received_refused _ _ _ Hget), Hr.
  destruct hid as [|hid], sid as [|sid];
    usb_step; eexists _, _; (split; [reflexivity|]); simpl;
    rewrite <- ?app_assoc; simpl; eauto.
Qed.

Lemma response_faults c w object_path parameters locals f :
  call w = Some c ->
  object_path ∈ (bus_signals w).*2 ->
  g_variant_get parameters "(s@a(sa{sv}))" = None ->
  response_outcome locals = inl f ->
  step (Response object_path parameters locals) w = inl f.
Proof.
  intros Hcall Hsub Hget Hf.
  destruct w as [call0 sender0 subs canc pend rt nid tr]; simpl in *; subst.
  destruct c as [sid path hid par ph devs].
  unfold step, bind at 1, get at 1; simpl.
  rewrite bool_decide_eq_true_2 by done. unfold when.
  rewrite (acquire_response_received_refused _ _ _ Hget), Hf.
  destruct hid as [|hid]; by usb_step.
Qed.

(** Whatever a Response carries, the handler does not read it. *)
Lemma response_not_read w object_path parameters parameters' locals :
  g_variant_get parameters "(s@a(sa{sv}))" = None ->
  g_variant_get parameters' "(s@a(sa{sv}))" = None ->
  step (Response object_path parameters locals) w
  = step (Response object_path parameters' locals) w.
Proof.
  intros Hget Hget'. unfold step, bind, get.
  destruct (bool_decide _); [|done]. unfold when.
  by rewrite !acquire_response_received_refused.
Qed.

(** Response signals delivered to a process without subscription reach
    nothing. *)
Lemma unsubscribed_run evs w :
  bus_signals w = [] ->
  Forall is_response evs ->
  run evs w = inr (tt, w).
Proof.
  intros Hsubs.
  induction 1 as [|ev evs (path & parameters & locals & ->) _ IH]; [done|].
  destruct w as [call0 sender0 subs canc pend rt nid tr]; simpl in *.
  subst subs. usb_step. exact IH.
Qed.

(** The order a portal uses: the reply to the AcquireDevices method call,
    which carries the request path, and then the Response.  The reply does
    not have the type "o" the call asked for, so [usb_call_returned]
    resolves the task with GDBus's error and releases the call; the
    Response finds no subscription. *)
Lemma reply_before_response name given first_id requests locals random p
    evs :
  Forall is_response evs ->
  exists w,
    (xdp_portal_usb_acquire_devices None requests locals random
       >> run (CallReturned (inr p) :: evs))
      (idle name given first_id) = inr (tt, w)
    /\ resolutions (trace w) =
         [task_error (unexpected_reply_type "(o)" "o")]
    /\ call w = None.
Proof.
  intros Hevs.
  change (run (?ev :: ?l)) with (step ev >> run l).
  destruct given as [b|].
  all: repeat progress (unfold step; usb_unfold; simpl).
  all: rewrite ?call_finish_object_path.
  all: repeat progress (usb_unfold; simpl).
  all: rewrite ?filter_other_id.
  all: rewrite unsubscribed_run by done.
  all: eexists; split; [reflexivity|]; done.
Qed.

(** C7 (the code departs from the claim): the status of a Response is never
    decoded.  [g_variant_get] is handed the format "(s@a(sa{sv}))" for a
    message that carries a uint32 status, refuses it and stores nothing;
    the branch on [response] is taken on what that variable, which has no
    initialiser, happens to hold.  So the outcome of a Response does not
    depend on the status or the results the broker sent: with [response]
    holding 1 a Response of any status, 0 included, resolves the call with
    the cancellation error; with [response] holding anything but 0 and 1 it
    resolves it with the failure error; and with [response] holding 0 the
    handler iterates over the equally unassigned [devices] and faults
    unless that variable points at a live container, in which case the
    list it resolves with is empty.  All this is for a Response that
    overtakes the reply to the method call; in the order a portal uses,
    the reply first, the Response is not handled at all: the reply has
    been refused for its type, the task resolved with that error and the
    subscription dropped. *)
Theorem response_status_is_not_decoded c w object_path status results locals :
  call w = Some c ->
  object_path ∈ (bus_signals w).*2 ->
  let delivered := Response object_path (WTuple [WUint32 status; results]) in
  (forall status' results',
     step (delivered locals) w
     = step (Response object_path (WTuple [WUint32 status'; results'])
                      locals) w)
  /\ match response_outcome locals with
     | inl f => step (delivered locals) w = inl f
     | inr r =>
         exists w' rest,
           step (delivered locals) w = inr (tt, w')
           /\ trace w' = trace w ++ rest
           /\ resolutions rest = [r]
           /\ call w' = None
     end
  /\ (response_slot locals = 1%Z ->
      response_outcome locals =
        inr (task_error {| code := G_IO_ERROR_CANCELLED;
                           message := "Acquire USB devices canceled" |}))
  /\ (response_slot locals <> 0%Z -> response_slot locals <> 1%Z ->
      response_outcome locals =
        inr (task_error {| code := G_IO_ERROR_FAILED;
                           message := "Acquire USB devices failed" |}))
  /\ (response_slot locals = 0%Z ->
      response_outcome locals = inl Indeterminate
      \/ response_outcome locals = inl NotAContainer
      \/ response_outcome locals = inr (fds_pointer []))
  /\ (forall name given first_id requests acquire_locals random path,
        exists w',
          (xdp_portal_usb_acquire_devices None requests acquire_locals
             random
             >> run [CallReturned (inr path); delivered locals])
            (idle name given first_id) = inr (tt, w')
          /\ resolutions (trace w') =
               [task_error (unexpected_reply_type "(o)" "o")]
          /\ call w' = None).
Proof.
  intros Hcall Hsub delivered. subst delivered. split_and!.
  - intros status' results'.
    apply response_not_read; apply response_format_refused.
  - destruct (response_outcome locals) as [f|r] eqn:Hout.
    + eapply response_faults; [done..|apply response_format_refused|done].
    + eapply response_resolves; [done..|apply response_format_refused|done].
  - intros H1. unfold response_outcome. rewrite H1. done.
  - intros H0 H1. unfold response_outcome.
    by rewrite !bool_decide_eq_false_2.
  - intros H0. unfold response_outcome. rewrite H0. simpl.
    destruct (response_devices_slot locals) as [| |v]; [eauto..|].
    destruct (children_of v); eauto.
  - intros name given first_id requests acquire_locals random path.
    apply reply_before_response.
    apply Forall_cons; split; [by eexists _, _, _|apply Forall_nil_2].
Qed.

(** C4 (the code departs from the claim): a Response never makes the call
    resolve with a list that has an element.  For a Response that carries a
    status and results, whatever they are and whatever the unassigned
    variables hold, the handler faults or resolves the call with an error
    or with the empty list of descriptors, and not even a [devices]
    variable that happens to point at the array of the per-device results
    changes that: the loop over it is ended by the refusal of the format
    "&s@a{sv}" before its body runs.  The finishing query, whose loop body
    is the one place that builds a record with [success] unset, the
    descriptor -1 and the error message, appends nothing to its list
    either, for the same reason.  And when the reply to the method call
    is delivered before the Response, as a portal does, the call has been
    resolved with the error for the reply's type before the Response
    comes, and the Response changes nothing. *)
Theorem denied_device_is_not_reported c w object_path status results locals :
  call w = Some c ->
  object_path ∈ (bus_signals w).*2 ->
  (forall w',
     step (Response object_path (WTuple [WUint32 status; results]) locals) w
       = inr (tt, w') ->
     exists rest,
       trace w' = trace w ++ rest
       /\ (resolutions rest = [fds_pointer []]
           \/ exists e, resolutions rest = [task_error e]))
  /\ (forall devices,
        response_slot locals = 0%Z ->
        response_devices_slot locals = live (wire_of_devices devices) ->
        exists w' rest,
          step (Response object_path (WTuple [WUint32 status; results])
                         locals) w = inr (tt, w')
          /\ trace w' = trace w ++ rest
          /\ resolutions rest = [fds_pointer []])
  /\ (forall append_locals fd_list devices fd_list',
        append_variant_to_fd_list append_locals fd_list
          (live (wire_of_devices devices)) = inr fd_list' ->
        fd_list' = fd_list)
  /\ (forall name given first_id requests acquire_locals random path,
        exists w',
          (xdp_portal_usb_acquire_devices None requests acquire_locals
             random
             >> run [CallReturned (inr path);
                     Response object_path
                       (WTuple [WUint32 status; results]) locals])
            (idle name given first_id) = inr (tt, w')
          /\ resolutions (trace w') =
               [task_error (unexpected_reply_type "(o)" "o")]).
Proof.
  intros Hcall Hsub. split_and!.
  - intros w' Hstep.
    destruct (response_outcome locals) as [f|r] eqn:Hout.
    + rewrite (response_faults c w _ _ _ f Hcall Hsub
                 (response_format_refused _ _) Hout) in Hstep.
      discriminate.
    + destruct (response_resolves c w _ _ _ r Hcall Hsub
                  (response_format_refused status results) Hout)
        as (w2 & rest & Hstep2 & Htr & Hres & _).
      rewrite Hstep2 in Hstep. injection Hstep as <-.
      exists rest. split; [done|]. rewrite Hres.
      unfold response_outcome in Hout.
      destruct (bool_decide (response_slot locals = 0%Z)).
      * destruct (response_devices_slot locals) as [| |v]; [done..|].
        destruct (children_of v); [|done]. injection Hout as <-. by left.
      * destruct (bool_decide (response_slot locals = 1%Z));
          injection Hout as <-; right; eauto.
  - intros devs H0 Hdevs.
    destruct (response_resolves c w object_path
                (WTuple [WUint32 status; results]) locals (fds_pointer [])
                Hcall Hsub (response_format_refused _ _))
      as (w' & rest & ? & ? & ? & _).
    { unfold response_outcome. by rewrite H0, Hdevs. }
    eauto.
  - intros append_locals fd_list devs fd_list'.
    apply append_variant_to_fd_list_keeps.
  - intros name given first_id requests acquire_locals random path.
    destruct (reply_before_response name given first_id requests
                acquire_locals random path
                [Response object_path (WTuple [WUint32 status; results])
                          locals])
      as (w' & ? & ? & _); [|eauto].
    apply Forall_cons; split; [by eexists _, _, _|apply Forall_nil_2].
Qed.
End CallFacts.

Lemma response_status_is_not_decoded_witness :
  exists w' rest,
    step sample_object_path sample_request_prefix
         (Response sample_request_path
                   (response_parameters 0 [("usb:001", granted 7)])
                   response_locals_one)
         sample_in_flight = inr (tt, w')
    /\ trace w' = trace sample_in_flight ++ rest
    /\ resolutions rest =
         [task_error {| code := G_IO_ERROR_CANCELLED;
                        message := "Acquire USB devices canceled" |}]
    /\ call w' = None.
Proof.
  apply (proj1 (proj2 (response_status_is_not_decoded
                         sample_object_path sample_request_prefix
                         sample_call sample_in_flight sample_request_path 0
                         (WArray "{sv}"
                            [WEntry (WString "devices")
                               (WVariant (wire_of_devices
                                            [("usb:001", granted 7)]))])
                         response_locals_one eq_refl
                         ltac:(vm_compute; apply list_elem_of_here)))).
Defined.

Lemma denied_device_is_not_reported_witness :
  exists w' rest,
    step sample_object_path sample_request_prefix
         (Response sample_request_path
                   (response_parameters 0 [("usb:001", denied "denied")])
                   {| response_slot := 0;
                      response_devices_slot :=
                        live (wire_of_devices [("usb:001", denied "denied")]) |})
         sample_in_flight = inr (tt, w')
    /\ trace w' = trace sample_in_flight ++ rest
    /\ resolutions rest = [fds_pointer []].
Proof.
  apply (proj1 (proj2 (denied_device_is_not_reported
                         sample_object_path sample_request_prefix
                         sample_call sample_in_flight sample_request_path 0
                         (WArray "{sv}"
                            [WEntry (WString "devices")
                               (WVariant (wire_of_devices
                                            [("usb:001", denied "denied")]))])
                         {| response_slot := 0;
                            response_devices_slot :=
                              live (wire_of_devices
                                      [("usb:001", denied "denied")]) |}
                         eq_refl
                         ltac:(vm_compute; apply list_elem_of_here)))
               [("usb:001", denied "denied")]);
    reflexivity.
Defined.

Lemma cancelled_call_is_used_after_free_witness :
  exists w',
    step sample_object_path sample_request_prefix Cancelled sample_in_flight
      = inr (tt, w')
    /\ resolutions (trace w') =
         resolutions (trace sample_in_flight) ++ [cancelled_by_caller]
    /\ call w' = None
    /\ pending w' = Some (call_returned_cb, false)
    /\ step sample_object_path sample_request_prefix
            (CallReturned (inl no_reply)) w' = inl UseAfterFree.
Proof.
  apply (cancelled_call_is_used_after_free
           sample_object_path sample_request_prefix
           sample_call).
  - split; [reflexivity|]. split; [simpl; lia|reflexivity].
  - reflexivity.
Defined.

(** ** Ordering of the AcquireDevices request *)

Lemma bind_inr {A B} (m : M A) (k : A -> M B) w a w' :
  m w = inr (a, w') -> bind m k w = k a w'.
Proof. unfold bind. by intros ->. Qed.

Lemma bind_inv {A B} (m : M A) (k : A -> M B) w b w' :
  bind m k w = inr (b, w') ->
  exists a w1, m w = inr (a, w1) /\ k a w1 = inr (b, w').
Proof.
  unfold bind. destruct (m w) as [f|[a w1]]; [done|]. eauto.
Qed.

Lemma copy_requests requests :
  map xdp_usb_device_acquire_request_copy requests = requests.
Proof.
  induction requests as [|[i wr] requests IH]; [done|].
  simpl. by rewrite IH.
Qed.

Lemma subscribed_before_request_app prefix name tr1 tr2 :
  subscribed_before_request prefix name tr1 ->
  subscribed_before_request prefix name tr2 ->
  subscribed_before_request prefix name (tr1 ++ tr2).
Proof.
  intros H1 H2 i object_path handle devs options Hi.
  destruct (decide (i < length tr1)) as [Hlt|Hge].
  - rewrite lookup_app_l in Hi by done.
    destruct (H1 _ _ _ _ _ Hi) as (j & id & token & Hj & Hopt & Hsub & Hbetween).
    exists j, id, token. split_and!; [done|done| |].
    + rewrite lookup_app_l by lia. done.
    + intros k Hk. rewrite lookup_app_l by lia. by apply Hbetween.
  - rewrite lookup_app_r in Hi by lia.
    destruct (H2 _ _ _ _ _ Hi) as (j & id & token & Hj & Hopt & Hsub & Hbetween).
    exists (length tr1 + j), id, token. split_and!; [lia|done| |].
    + rewrite lookup_app_r by lia.
      by replace (length tr1 + j - length tr1) with j by lia.
    + intros k Hk. rewrite lookup_app_r by lia. apply Hbetween. lia.
Qed.

Lemma subscribed_before_request_quiet prefix name tr :
  Forall (fun a => ~ is_acquire_request a) tr ->
  subscribed_before_request prefix name tr.
Proof.
  intros Hquiet i object_path handle devs options Hi.
  exfalso. eapply Forall_lookup_1 in Hquiet; [|done].
  apply Hquiet. unfold is_acquire_request. eauto.
Qed.

(** Unfolds the callbacks down to the operations of the monad. *)
Ltac usb_callbacks :=
  unfold xdp_portal_usb_acquire_devices, xdp_portal_usb_create_session,
    create_session, parent_exported,
    acquire_response_received, acquire_cancelled_cb, usb_call_cancelled_cb,
    usb_call_returned, usb_session_call_returned, disconnect_cancelled,
    usb_call_free, run_hook,
    g_dbus_connection_signal_subscribe, g_dbus_connection_signal_unsubscribe,
    g_signal_connect, g_signal_handler_disconnect, g_dbus_connection_call,
    g_task_return_new_error, g_task_return, g_free_call, fresh_id, assign,
    cleanup.

Section OrderingFacts.
Variable PORTAL_OBJECT_PATH : string.
Variable REQUEST_PATH_PREFIX : string.

Abbreviation run := (run PORTAL_OBJECT_PATH REQUEST_PATH_PREFIX).
Abbreviation step := (step PORTAL_OBJECT_PATH REQUEST_PATH_PREFIX).
Abbreviation acquire_devices :=
  (acquire_devices PORTAL_OBJECT_PATH REQUEST_PATH_PREFIX).
Abbreviation parent_exported :=
  (parent_exported PORTAL_OBJECT_PATH REQUEST_PATH_PREFIX).
Abbreviation xdp_portal_usb_acquire_devices :=
  (xdp_portal_usb_acquire_devices PORTAL_OBJECT_PATH REQUEST_PATH_PREFIX).
Abbreviation ordered := (subscribed_before_request REQUEST_PATH_PREFIX).

Lemma run_app evs1 evs2 w :
  run (evs1 ++ evs2) w = (run evs1 >> run evs2) w.
Proof.
  revert w. induction evs1 as [|ev evs1 IH]; intros w; simpl.
  - done.
  - unfold bind in *. destruct (step ev w) as [f|[[] w1]]; [done|].
    by rewrite IH.
Qed.

(** *** Until the export callback fires *)

Lemma start_with_parent name given first_id parent requests locals
    random :
  options_slot locals = null ->
  devices_slot locals = null ->
  exists w,
    xdp_portal_usb_acquire_devices (Some parent) requests locals random
      (idle name given first_id) = inr (tt, w)
    /\ trace w = [parent_export]
    /\ awaiting_export w
    /\ (exists c, call w = Some c /\ devices c = requests)
    /\ sender w = name
    /\ cancellable w = cancellable (idle name given first_id)
    /\ next_id w = first_id.
Proof.
  destruct locals as [o d]; simpl; intros -> ->.
  usb_step. eexists; split; [reflexivity|]. simpl.
  split; [done|]. split.
  - unfold awaiting_export; simpl. split_and!; eauto.
    intros g Hg. destruct given; simpl in Hg; [|done].
    by injection Hg as <-.
  - split_and!; try done. eexists; split; [done|]. simpl.
    apply copy_requests.
Qed.

Lemma locals_null_or_not locals :
  (options_slot locals = null /\ devices_slot locals = null)
  \/ (options_slot locals <> null \/ devices_slot locals <> null).
Proof.
  destruct locals as [[| |o] [| |d]]; simpl; [by left|right..]; eauto.
Qed.

(** The early return of [acquire_devices] with a local that does not hold
    NULL. *)
Lemma start_with_parent_faults name cancellable next_id parent requests
    locals random :
  options_slot locals <> null \/ devices_slot locals <> null ->
  xdp_portal_usb_acquire_devices (Some parent) requests locals random
    (idle name cancellable next_id) = inl Indeterminate.
Proof.
  destruct locals as [[| |o] [| |d]]; simpl; intros [H|H]; try done.
  all: by usb_step.
Qed.

Lemma awaiting_export_step ev w :
  awaiting_export w ->
  ~ is_export_callback ev ->
  exists w', step ev w = inr (tt, w')
             /\ trace w' = trace w /\ call w' = call w
             /\ sender w' = sender w /\ next_id w' = next_id w
             /\ awaiting_export w'
             /\ cancellable w' =
                  option_map
                    (fun g => {| is_cancelled := is_cancelled g || is_cancel ev;
                                 handlers := [] |})
                    (cancellable w).
Proof.
  intros ((c & Hcall & Hhandle) & Hpend & Hsubs & Hhs) Hev.
  destruct w as [call0 sender0 subs canc pend rt nid tr]; simpl in *; subst.
  destruct ev as [|handle locals random|ret|object_path parameters locals].
  2: { exfalso. apply Hev. unfold is_export_callback. eauto. }
  all: destruct canc as [[b hs]|];
    [pose proof (Hhs _ eq_refl) as Hnil; simpl in Hnil; subst hs;
     destruct b|].
  all: usb_step; eexists; split_and!; try done.
  all: unfold awaiting_export; simpl; split_and!; eauto.
  all: intros g Hg; injection Hg as <-; done.
Qed.

Lemma awaiting_export_run evs : forall w,
  awaiting_export w ->
  Forall (fun ev => ~ is_export_callback ev) evs ->
  exists w', run evs w = inr (tt, w')
             /\ trace w' = trace w /\ call w' = call w
             /\ sender w' = sender w /\ next_id w' = next_id w
             /\ awaiting_export w'
             /\ cancellable w' =
                  option_map
                    (fun g => {| is_cancelled :=
                                   is_cancelled g || existsb is_cancel evs;
                                 handlers := [] |})
                    (cancellable w).
Proof.
  induction evs as [|ev evs IH]; intros w Hw Hevs.
  - exists w. simpl. split_and!; try done.
    destruct (cancellable w) as [[b hs]|] eqn:Hg; [|done]. simpl.
    rewrite orb_false_r. do 2 f_equal.
    destruct Hw as (_ & _ & _ & Hhs). exact (Hhs _ Hg).
  - apply Forall_cons in Hevs as [Hev Hevs].
    destruct (awaiting_export_step ev w Hw Hev)
      as (w1 & Hstep & Htr & Hc & Hs & Hn & Hw1 & Hg1).
    destruct (IH w1 Hw1 Hevs)
      as (w2 & Hrun & Htr2 & Hc2 & Hs2 & Hn2 & Hw2 & Hg2).
    exists w2. simpl. rewrite (bind_inr _ _ _ _ _ Hstep).
    split_and!; [done|congruence..|done|].
    rewrite Hg2, Hg1. destruct (cancellable w) as [g|]; [|done].
    simpl. by rewrite orb_assoc.
Qed.

(** [acquire_devices] on a call that has its parent handle: the
    subscription, then the handler on the cancellable if there is one, then
    the request. *)
Lemma acquire_devices_sends c w handle locals random :
  call w = Some c ->
  parent_handle c = Some handle ->
  let path := REQUEST_PATH_PREFIX +:+ sender w +:+ "/"
                +:+ handle_token random in
  exists w' id mid,
    acquire_devices locals random w = inr (tt, w')
    /\ trace w' =
         trace w ++ signal_subscribe id path :: mid ++
           [dbus_call (Some PORTAL_OBJECT_PATH)
              (AcquireDevices handle (map add_to_variant (devices c))
                 (<["handle_token" := VString (handle_token random)]> ∅))]
    /\ Forall (fun a => exists n h, a = signal_connect n h) mid
    /\ (id, path) ∈ bus_signals w'
    /\ sender w' = sender w.
Proof.
  intros Hcall Hhandle path. subst path.
  destruct w as [call0 sender0 subs canc pend rt nid tr]; simpl in *; subst.
  destruct c as [sid rp hid par ph devs]; simpl in *; subst.
  destruct canc as [g|]; usb_step.
  - eexists _, _, [_]. split; [reflexivity|]. simpl.
    rewrite <- !app_assoc. simpl. split; [reflexivity|].
    split; [repeat constructor; eauto|]. split; [set_solver|done].
  - eexists _, _, []. split; [reflexivity|]. simpl.
    rewrite <- !app_assoc. simpl. split; [reflexivity|].
    split; [constructor|]. split; [set_solver|done].
Qed.

(** The export callback with a handle sends the request, with that handle. *)
Lemma export_callback_sends c w handle locals random :
  call w = Some c ->
  exists w' mid,
    step (ParentExported (Some handle) locals random) w = inr (tt, w')
    /\ trace w' =
         trace w ++ mid ++
           [dbus_call (Some PORTAL_OBJECT_PATH)
              (AcquireDevices handle (map add_to_variant (devices c))
                 (<["handle_token" := VString (handle_token random)]> ∅))]
    /\ Forall (fun a => ~ is_acquire_request a) mid.
Proof.
  intros Hcall.
  destruct w as [call0 sender0 subs canc pend rt nid tr]; simpl in *; subst.
  destruct c as [sid rp hid par ph devs]; simpl in *; subst.
  destruct canc as [g|]; usb_step.
  - eexists _, [_; _]. split; [reflexivity|]. simpl.
    rewrite <- !app_assoc. simpl. split; [reflexivity|].
    repeat constructor; intros (? & ? & ? & ? & ?); discriminate.
  - eexists _, [_]. split; [reflexivity|]. simpl.
    rewrite <- !app_assoc. simpl. split; [reflexivity|].
    repeat constructor; intros (? & ? & ? & ? & ?); discriminate.
Qed.

Lemma start_without_parent name cancellable next_id requests locals random :
  exists w mid,
    xdp_portal_usb_acquire_devices None requests locals random
      (idle name cancellable next_id) = inr (tt, w)
    /\ trace w =
         mid ++
           [dbus_call (Some PORTAL_OBJECT_PATH)
              (AcquireDevices "" (map add_to_variant requests)
                 (<["handle_token" := VString (handle_token random)]> ∅))]
    /\ Forall (fun a => ~ is_acquire_request a) mid.
Proof.
  destruct cancellable as [b|]; usb_step; rewrite copy_requests.
  - eexists _, [_; _]. split; [reflexivity|]. simpl. split; [reflexivity|].
    repeat constructor; intros (? & ? & ? & ? & ?); discriminate.
  - eexists _, [_]. split; [reflexivity|]. simpl. split; [reflexivity|].
    repeat constructor; intros (? & ? & ? & ? & ?); discriminate.
Qed.

(** C9: with a parent window, nothing but the export is asked until the
    export callback fires, whatever else the main loop delivers: every run
    that gets there has asked for the export and done nothing else.  The
    early return of [acquire_devices] runs the cleanups of its two
    [g_autoptr] locals, which have not been assigned: when they hold NULL
    the call waits and the callback with a handle then sends the
    AcquireDevices request with that handle; when one of them does not,
    [xdp_portal_usb_acquire_devices] faults there, the request not sent.
    Without a parent window the request is sent at once, with the empty
    handle, whatever the locals hold. *)
Theorem request_waits_for_parent_export
    name cancellable next_id parent requests locals random evs handle
    locals' random' :
  Forall (fun ev => ~ is_export_callback ev) evs ->
  (forall w,
     (xdp_portal_usb_acquire_devices (Some parent) requests locals random
        >> run evs) (idle name cancellable next_id) = inr (tt, w) ->
     trace w = [parent_export])
  /\ (options_slot locals = null -> devices_slot locals = null ->
      (exists w,
         (xdp_portal_usb_acquire_devices (Some parent) requests locals random
            >> run evs) (idle name cancellable next_id) = inr (tt, w))
      /\ exists w mid,
           (xdp_portal_usb_acquire_devices (Some parent) requests locals
              random >>
            run (evs ++ [ParentExported (Some handle) locals' random']))
             (idle name cancellable next_id) = inr (tt, w)
           /\ trace w =
                parent_export :: mid ++
                  [dbus_call (Some PORTAL_OBJECT_PATH)
                     (AcquireDevices handle (map add_to_variant requests)
                        (<["handle_token" :=
                             VString (handle_token random')]> ∅))]
           /\ Forall (fun a => ~ is_acquire_request a) mid)
  /\ (options_slot locals <> null \/ devices_slot locals <> null ->
      xdp_portal_usb_acquire_devices (Some parent) requests locals random
        (idle name cancellable next_id) = inl Indeterminate)
  /\ (exists w mid,
        xdp_portal_usb_acquire_devices None requests locals random
          (idle name cancellable next_id) = inr (tt, w)
        /\ trace w =
             mid ++
               [dbus_call (Some PORTAL_OBJECT_PATH)
                  (AcquireDevices "" (map add_to_variant requests)
                     (<["handle_token" := VString (handle_token random)]> ∅))]
        /\ Forall (fun a => ~ is_acquire_request a) mid).
Proof.
  intros Hevs.
  assert (Hnull : options_slot locals = null -> devices_slot locals = null ->
            exists w0 w1 c,
              xdp_portal_usb_acquire_devices (Some parent) requests locals
                random (idle name cancellable next_id) = inr (tt, w0)
              /\ run evs w0 = inr (tt, w1)
              /\ trace w1 = [parent_export]
              /\ call w1 = Some c /\ devices c = requests).
  { intros Ho Hd.
    destruct (start_with_parent name cancellable next_id parent requests
                locals random Ho Hd)
      as (w0 & Hstart & Htr0 & Hw0 & (c & Hc & Hdevs) & _).
    destruct (awaiting_export_run evs w0 Hw0 Hevs)
      as (w1 & Hrun & Htr1 & Hc1 & _).
    exists w0, w1, c. split_and!; congruence. }
  split_and!.
  - intros w Hrun.
    destruct (locals_null_or_not locals) as [[Ho Hd]|Hnot].
    + destruct (Hnull Ho Hd) as (w0 & w1 & c & Hstart & Hrun1 & Htr & _).
      rewrite (bind_inr _ _ _ _ _ Hstart), Hrun1 in Hrun. congruence.
    + unfold bind in Hrun.
      rewrite start_with_parent_faults in Hrun by done. discriminate.
  - intros Ho Hd.
    destruct (Hnull Ho Hd) as (w0 & w1 & c & Hstart & Hrun1 & Htr & Hc & Hdevs).
    split.
    + exists w1. by rewrite (bind_inr _ _ _ _ _ Hstart).
    + destruct (export_callback_sends c w1 handle locals' random' Hc)
        as (w2 & mid & Hstep & Htr2 & Hmid).
      exists w2, mid. rewrite (bind_inr _ _ _ _ _ Hstart), run_app.
      rewrite (bind_inr _ _ _ _ _ Hrun1). simpl.
      rewrite (bind_inr _ _ _ _ _ Hstep). split; [done|].
      split; [|done]. rewrite Htr2, Htr, Hdevs. done.
  - apply start_with_parent_faults.
  - apply start_without_parent.
Qed.

(** *** Every request after its subscription *)

Abbreviation tidy := (tidy REQUEST_PATH_PREFIX).

Lemma tidy_quiet {A} (m : M A) :
  (forall w a w', m w = inr (a, w') ->
     sender w' = sender w
     /\ exists new, trace w' = trace w ++ new
                    /\ Forall (fun a => ~ is_acquire_request a) new) ->
  tidy m.
Proof.
  intros H w a w' Hm. destruct (H w a w' Hm) as (Hs & new & Htr & Hnew).
  split; [done|]. exists new. split; [done|].
  by apply subscribed_before_request_quiet.
Qed.

Lemma tidy_pure {A} (a : A) : tidy (pure a).
Proof.
  apply tidy_quiet. intros w a' w' [= <- <-]. split; [done|].
  exists []. by rewrite app_nil_r.
Qed.

Lemma tidy_bind {A B} (m : M A) (k : A -> M B) :
  tidy m -> (forall a, tidy (k a)) -> tidy (bind m k).
Proof.
  intros Hm Hk w b w' Hbind.
  apply bind_inv in Hbind as (a & w1 & Hm1 & Hk1).
  destruct (Hm _ _ _ Hm1) as (Hs1 & new1 & Htr1 & Hnew1).
  destruct (Hk a _ _ _ Hk1) as (Hs2 & new2 & Htr2 & Hnew2).
  split; [congruence|]. exists (new1 ++ new2).
  split; [by rewrite Htr2, Htr1, app_assoc|].
  apply subscribed_before_request_app; [done|]. by rewrite <- Hs1.
Qed.

Lemma tidy_get {A} (f : World -> A) : tidy (get f).
Proof.
  apply tidy_quiet. intros w a' w' [= <- <-]. split; [done|].
  exists []. by rewrite app_nil_r.
Qed.

Lemma tidy_modify (f : World -> World) :
  (forall w, sender (f w) = sender w /\ trace (f w) = trace w) ->
  tidy (modify f).
Proof.
  intros Hf. apply tidy_quiet. intros w a' w' [= <- <-].
  destruct (Hf w) as [Hs Ht]. split; [done|].
  exists []. by rewrite app_nil_r.
Qed.

Lemma tidy_emit (a : Action) : ~ is_acquire_request a -> tidy (emit a).
Proof.
  intros Ha. apply tidy_quiet. intros w a' w' [= <- <-]. split; [done|].
  exists [a]. split; [done|]. by constructor.
Qed.

Lemma tidy_fault {A} (f : Fault) : tidy (fault f : M A).
Proof. intros w a w' H. discriminate. Qed.

Lemma tidy_deref : tidy deref.
Proof.
  apply tidy_quiet. intros w a' w' H. unfold deref in H.
  destruct (call w); [|done]. injection H as <- <-. split; [done|].
  exists []. by rewrite app_nil_r.
Qed.

Lemma tidy_when (b : bool) (m : M unit) : tidy m -> tidy (when b m).
Proof. destruct b; [done|]. intros _. apply tidy_pure. Qed.

Lemma not_acquire_request (a : Action) :
  match a with
  | dbus_call _ (AcquireDevices _ _ _) => False
  | _ => True
  end ->
  ~ is_acquire_request a.
Proof. intros Ha (? & ? & ? & ? & ->). done. Qed.

Lemma subscribe_then_request name id token mid object_path handle devs :
  Forall (fun a => exists n h, a = signal_connect n h) mid ->
  ordered name
    (signal_subscribe id (REQUEST_PATH_PREFIX +:+ name +:+ "/" +:+ token)
       :: mid ++
       [dbus_call object_path
          (AcquireDevices handle devs (<["handle_token" := VString token]> ∅))]).
Proof.
  intros Hmid [|i] object_path' handle' devs' options Hi; [done|].
  simpl in Hi.
  destruct (decide (i < length mid)) as [Hlt|Hge].
  - rewrite lookup_app_l in Hi by done.
    eapply Forall_lookup_1 in Hmid as (n & h & ?); [|done]. done.
  - rewrite lookup_app_r in Hi by lia.
    destruct (i - length mid) as [|n] eqn:Hn; [|done].
    injection Hi as <- <- <- <-.
    exists 0, id, token. split_and!; [lia|by rewrite lookup_insert_eq|done|].
    intros [|k] Hk; [lia|]. simpl. rewrite lookup_app_l by lia.
    intros Hk'. eapply Forall_lookup_1 in Hmid as (? & ? & ?); [|done]. done.
Qed.

Lemma tidy_acquire_devices locals random :
  tidy (acquire_devices locals random).
Proof.
  intros w [] w' Hrun.
  destruct (call w) as [c|] eqn:Hcall.
  - destruct (parent_handle c) as [handle|] eqn:Hhandle.
    + destruct (acquire_devices_sends c w handle locals random Hcall Hhandle)
        as (w2 & id & mid & Hsend & Htr & Hmid & _ & Hs).
      rewrite Hsend in Hrun. injection Hrun as <-.
      split; [done|]. eexists; split; [done|].
      by apply subscribe_then_request.
    + destruct w as [call0 sender0 subs canc pend rt nid tr];
        simpl in *; subst.
      destruct c as [sid rp hid par ph devs]; simpl in *; subst.
      destruct locals as [[| |o] [| |d]]; usb_step; try discriminate Hrun.
      injection Hrun as <-. simpl. split; [done|].
      exists [parent_export]. split; [done|].
      apply subscribed_before_request_quiet.
      repeat constructor. by apply not_acquire_request.
  - destruct w as [call0 sender0 subs canc pend rt nid tr];
      simpl in *; subst. usb_step. discriminate.
Qed.

Ltac tidy_tac :=
  repeat first
    [ apply tidy_pure | apply tidy_get | apply tidy_deref | apply tidy_fault
    | apply tidy_acquire_devices
    | apply tidy_emit; apply not_acquire_request; exact I
    | apply tidy_modify; intros []; split; reflexivity
    | apply tidy_when
    | apply tidy_bind; [|intros ?]
    | match goal with
      | |- context [match ?x with _ => _ end] => destruct x
      end ].

Lemma tidy_run_hooks hs : tidy (run_hooks hs).
Proof.
  induction hs as [|[n h] hs IH]; simpl; [apply tidy_pure|].
  apply tidy_bind; [|done]. usb_callbacks. tidy_tac.
Qed.

Lemma tidy_step ev : tidy (step ev).
Proof.
  destruct ev as [|handle locals random|ret|object_path parameters locals];
    unfold step; usb_callbacks; unfold acquire_response_received;
    usb_callbacks; tidy_tac; apply tidy_run_hooks.
Qed.

Lemma tidy_run evs : tidy (run evs).
Proof.
  induction evs as [|ev evs IH]; simpl; [apply tidy_pure|].
  apply tidy_bind; [apply tidy_step|done].
Qed.

Lemma tidy_start parent requests locals random :
  tidy (xdp_portal_usb_acquire_devices parent requests locals random).
Proof. usb_callbacks. tidy_tac. Qed.

(** C5: [acquire_devices] subscribes to the Response signal on the request
    path, then connects the cancellation handler if there is a cancellable,
    and only then issues the AcquireDevices call, the subscription being
    live; and in every run of the main loop, each AcquireDevices request of
    the trace comes after the subscription on its request path, with no
    unsubscription in between. *)
Theorem response_subscribed_before_request :
  (forall c w handle locals random,
     call w = Some c ->
     parent_handle c = Some handle ->
     let path := REQUEST_PATH_PREFIX +:+ sender w +:+ "/"
                   +:+ handle_token random in
     exists w' id mid,
       acquire_devices locals random w = inr (tt, w')
       /\ trace w' =
            trace w ++ signal_subscribe id path :: mid ++
              [dbus_call (Some PORTAL_OBJECT_PATH)
                 (AcquireDevices handle (map add_to_variant (devices c))
                    (<["handle_token" := VString (handle_token random)]> ∅))]
       /\ Forall (fun a => exists n h, a = signal_connect n h) mid
       /\ (id, path) ∈ bus_signals w')
  /\ (forall name cancellable next_id parent requests locals random evs w,
        (xdp_portal_usb_acquire_devices parent requests locals random
           >> run evs)
          (idle name cancellable next_id) = inr (tt, w) ->
        ordered name (trace w)).
Proof.
  split.
  - intros c w handle locals random Hcall Hhandle.
    destruct (acquire_devices_sends c w handle locals random Hcall Hhandle)
      as (w' & id & mid & ? & ? & ? & ? & _).
    exists w', id, mid. done.
  - intros name cancellable next_id parent requests locals random evs w Hrun.
    assert (Ht : tidy (xdp_portal_usb_acquire_devices parent requests locals
                         random >> run evs)).
    { apply tidy_bind; [apply tidy_start|]. intros _. apply tidy_run. }
    destruct (Ht _ _ _ Hrun) as (_ & new & Htr & Hnew).
    simpl in Htr. by rewrite Htr.
Qed.
End OrderingFacts.

Lemma response_subscribed_before_request_witness :
  (exists w' id mid,
     acquire_devices sample_object_path sample_request_prefix wild_locals 7
       sample_ready = inr (tt, w')
     /\ trace w' =
          trace sample_ready ++
            signal_subscribe id sample_request_path :: mid ++
            [dbus_call (Some sample_object_path)
               (AcquireDevices "" (map add_to_variant one_device)
                  (<["handle_token" := VString "portal7"]> ∅))]
     /\ Forall (fun a => exists n h, a = signal_connect n h) mid
     /\ (id, sample_request_path) ∈ bus_signals w')
  /\ subscribed_before_request sample_request_prefix "1_42"
       (trace sample_in_flight).
Proof.
  split.
  - apply (proj1 (response_subscribed_before_request
                    sample_object_path sample_request_prefix)
                 {| signal_id := 0; request_path := None; cancelled_id := 0;
                    parent := None; parent_handle := Some "";
                    devices := one_device |}
                 sample_ready "" wild_locals 7%Z); reflexivity.
  - apply (proj2 (response_subscribed_before_request
                    sample_object_path sample_request_prefix)
                 "1_42" (Some false) 0 None one_device wild_locals 7%Z []
                 sample_in_flight).
    vm_compute. reflexivity.
Defined.

Lemma request_waits_for_parent_export_witness :
  (forall w,
     (xdp_portal_usb_acquire_devices sample_object_path sample_request_prefix
        (Some (xdp_parent 1)) one_device null_locals 7 >>
      run sample_object_path sample_request_prefix
        [Cancelled; CallReturned (inr "/");
         Response sample_request_path (response_parameters 0 [])
                  response_locals_one])
       (idle "1_42" (Some false) 0) = inr (tt, w) ->
     trace w = [parent_export])
  /\ (options_slot null_locals = null -> devices_slot null_locals = null ->
      (exists w,
         (xdp_portal_usb_acquire_devices sample_object_path
            sample_request_prefix (Some (xdp_parent 1)) one_device null_locals 7
          >> run sample_object_path sample_request_prefix
               [Cancelled; CallReturned (inr "/");
                Response sample_request_path (response_parameters 0 [])
                         response_locals_one])
           (idle "1_42" (Some false) 0) = inr (tt, w))
      /\ exists w mid,
           (xdp_portal_usb_acquire_devices sample_object_path
              sample_request_prefix (Some (xdp_parent 1)) one_device
              null_locals 7 >>
            run sample_object_path sample_request_prefix
              ([Cancelled; CallReturned (inr "/");
                Response sample_request_path (response_parameters 0 [])
                         response_locals_one]
                 ++ [ParentExported (Some "x11:2a") wild_locals 9]))
             (idle "1_42" (Some false) 0) = inr (tt, w)
           /\ trace w =
                parent_export :: mid ++
                  [dbus_call (Some sample_object_path)
                     (AcquireDevices "x11:2a" (map add_to_variant one_device)
                        (<["handle_token" := VString (handle_token 9)]> ∅))]
           /\ Forall (fun a => ~ is_acquire_request a) mid)
  /\ (options_slot null_locals <> null \/ devices_slot null_locals <> null ->
      xdp_portal_usb_acquire_devices sample_object_path sample_request_prefix
        (Some (xdp_parent 1)) one_device null_locals 7
        (idle "1_42" (Some false) 0) = inl Indeterminate)
  /\ (exists w mid,
        xdp_portal_usb_acquire_devices sample_object_path sample_request_prefix
          None one_device null_locals 7 (idle "1_42" (Some false) 0)
          = inr (tt, w)
        /\ trace w =
             mid ++
               [dbus_call (Some sample_object_path)
                  (AcquireDevices "" (map add_to_variant one_device)
                     (<["handle_token" := VString (handle_token 7)]> ∅))]
        /\ Forall (fun a => ~ is_acquire_request a) mid).
Proof.
  apply (request_waits_for_parent_export
           sample_object_path sample_request_prefix
           "1_42" (Some false) 0 (xdp_parent 1) one_device null_locals 7%Z
           [Cancelled; CallReturned (inr "/");
            Response sample_request_path (response_parameters 0 [])
                     response_locals_one]
           "x11:2a" wild_locals 9%Z).
  repeat constructor; intros (handle & locals & random & Hev); discriminate.
Defined.

(** ** Cancellation *)

Lemma bus_calls_app tr1 tr2 :
  bus_calls (tr1 ++ tr2) = bus_calls tr1 ++ bus_calls tr2.
Proof. apply omap_app. Qed.

Section CancellationFacts.
Variable PORTAL_OBJECT_PATH : string.
Variable REQUEST_PATH_PREFIX : string.

Abbreviation run := (run PORTAL_OBJECT_PATH REQUEST_PATH_PREFIX).
Abbreviation step := (step PORTAL_OBJECT_PATH REQUEST_PATH_PREFIX).
Abbreviation xdp_portal_usb_acquire_devices :=
  (xdp_portal_usb_acquire_devices PORTAL_OBJECT_PATH REQUEST_PATH_PREFIX).

(** Firing a cancellable that has fired calls no handler. *)
Lemma cancelled_again n : forall w g,
  cancellable w = Some g -> is_cancelled g = true ->
  run (replicate n Cancelled) w = inr (tt, w).
Proof.
  induction n as [|n IH]; intros w g Hg Hc; [done|].
  assert (Hstep : step Cancelled w = inr (tt, w)).
  { destruct w as [call0 sender0 subs canc pend rt nid tr];
      simpl in *; subst.
    destruct g as [b hs]; simpl in *; subst. by usb_step. }
  simpl. rewrite (bind_inr _ _ _ _ _ Hstep). by eapply IH.
Qed.

(** The export callback on a call whose cancellable has fired: the handler
    is connected all the same, and the request is sent. *)
Lemma export_when_cancelled c w handle locals random :
  call w = Some c ->
  cancellable w = Some {| is_cancelled := true; handlers := [] |} ->
  exists w',
    step (ParentExported (Some handle) locals random) w = inr (tt, w')
    /\ trace w' =
         trace w ++
           [signal_subscribe (S (next_id w))
              (REQUEST_PATH_PREFIX +:+ sender w +:+ "/"
                 +:+ handle_token random);
            signal_connect (S (S (next_id w))) acquire_cancelled_hook;
            dbus_call (Some PORTAL_OBJECT_PATH)
              (AcquireDevices handle (map add_to_variant (devices c))
                 (<["handle_token" := VString (handle_token random)]> ∅))]
    /\ is_Some (call w')
    /\ cancellable w' =
         Some {| is_cancelled := true;
                 handlers := [(S (S (next_id w)), acquire_cancelled_hook)] |}.
Proof.
  intros Hcall Hg.
  destruct w as [call0 sender0 subs canc pend rt nid tr]; simpl in *; subst.
  destruct c as [sid rp hid par ph devs]; simpl in *.
  usb_step. eexists. split; [reflexivity|]. simpl.
  rewrite <- !app_assoc. eauto.
Qed.

(** C6 (the code departs from the claim): cancellation of a call in
    flight.  Once the request has been sent and the handler is connected,
    the code does what the claim says.  (1) AcquireDevices: when the
    cancellable fires, Close is called on the request path, the task is
    resolved with G_IO_ERROR_CANCELLED and with nothing else, and the call
    is released.  (2) CreateSession: the handler calls Close on the call's
    [request_path], and the completion of the cancelled call resolves the
    task with G_IO_ERROR_CANCELLED.  (3) Once a call has been resolved and
    released by whatever event, its handler is detached and firing the
    cancellable changes neither the trace nor the call.  But (4) an
    AcquireDevices call with a parent window is in flight, and unresolved,
    while the window is being exported, and then no handler is connected:
    a cancellation that fires in that time calls nothing, neither Close nor
    a resolution; the export callback connects the handler to a
    cancellable that has already fired and sends the request all the same;
    and firing the cancellable again does nothing. *)
Theorem cancellation_of_a_call_in_flight :
  (forall hook c w,
     hooked hook c w ->
     match hook with
     | acquire_cancelled_hook =>
         exists w' rest,
           step Cancelled w = inr (tt, w')
           /\ trace w' = trace w ++ dbus_call (request_path c) Close
                          :: task_return cancelled_by_caller :: rest
           /\ resolutions rest = []
           /\ call w' = None
     | usb_call_cancelled_hook =>
         pending w = Some (session_call_returned_cb, true) ->
         exists w1,
           step Cancelled w = inr (tt, w1)
           /\ trace w1 = trace w ++ [dbus_call (request_path c) Close]
           /\ forall ret, exists w2 rest,
                step (CallReturned ret) w1 = inr (tt, w2)
                /\ trace w2 = trace w1 ++ rest
                /\ resolutions rest = [task_error operation_was_cancelled]
                /\ call w2 = None
     end
     /\ (forall ev w1,
           step ev w = inr (tt, w1) ->
           call w1 = None ->
           exists w2, step Cancelled w1 = inr (tt, w2)
                      /\ trace w2 = trace w1 /\ call w2 = None))
  /\ (forall name first_id parent requests locals random evs handle locals'
             random' n,
        Forall (fun ev => ~ is_export_callback ev) evs ->
        existsb is_cancel evs = true ->
        options_slot locals = null ->
        devices_slot locals = null ->
        exists w id,
          (xdp_portal_usb_acquire_devices (Some parent) requests locals
             random
             >> run (evs ++ ParentExported (Some handle) locals' random'
                         :: replicate n Cancelled))
            (idle name (Some false) first_id) = inr (tt, w)
          /\ resolutions (trace w) = []
          /\ bus_calls (trace w) =
               [(Some PORTAL_OBJECT_PATH,
                 AcquireDevices handle (map add_to_variant requests)
                   (<["handle_token" :=
                        VString (handle_token random')]> ∅))]
          /\ is_Some (call w)
          /\ cancellable w =
               Some {| is_cancelled := true;
                       handlers := [(id, acquire_cancelled_hook)] |}).
Proof.
  split.
  - intros hook c w Hhook. split.
    + destruct hook.
      * by apply session_cancel_in_flight.
      * destruct (acquire_cancel_in_flight PORTAL_OBJECT_PATH
                    REQUEST_PATH_PREFIX c w Hhook)
          as (w' & rest & ? & ? & ? & ? & _). eauto 10.
    + intros ev w1 Hstep Hfree.
      destruct (released_call_is_unhooked PORTAL_OBJECT_PATH
                  REQUEST_PATH_PREFIX hook c w ev w1 Hhook Hstep Hfree)
        as (g & Hg & Hh).
      destruct (cancel_without_handlers PORTAL_OBJECT_PATH
                  REQUEST_PATH_PREFIX w1 g Hg Hh) as (w2 & ? & ? & Hc & _).
      exists w2. rewrite Hc. eauto.
  - intros name first_id parent requests locals random evs handle locals'
           random' n Hevs Hcancel Ho Hd.
    destruct (start_with_parent PORTAL_OBJECT_PATH REQUEST_PATH_PREFIX
                name (Some false) first_id parent requests locals random
                Ho Hd)
      as (w0 & Hstart & Htr0 & Hw0 & (c & Hc0 & Hdevs) & Hs0 & Hg0 & Hn0).
    destruct (awaiting_export_run PORTAL_OBJECT_PATH REQUEST_PATH_PREFIX
                evs w0 Hw0 Hevs)
      as (w1 & Hrun1 & Htr1 & Hc1 & Hs1 & Hn1 & Hw1 & Hg1).
    rewrite Hg0 in Hg1. simpl in Hg1. rewrite Hcancel in Hg1.
    rewrite Hc0 in Hc1.
    destruct (export_when_cancelled c w1 handle locals' random' Hc1 Hg1)
      as (w2 & Hstep & Htr2 & Hc2 & Hg2).
    exists w2, (S (S (next_id w1))).
    rewrite (bind_inr _ _ _ _ _ Hstart), run_app.
    rewrite (bind_inr _ _ _ _ _ Hrun1).
    change (run (?ev :: ?evs')) with (step ev >> run evs').
    rewrite (bind_inr _ _ _ _ _ Hstep).
    rewrite (cancelled_again n w2 _ Hg2 eq_refl).
    split; [done|]. rewrite Htr2, Htr1, Htr0, Hdevs. done.
Qed.
End CancellationFacts.

Lemma cancellation_of_a_call_in_flight_witness :
  (exists w' rest,
     step sample_object_path sample_request_prefix Cancelled sample_in_flight
       = inr (tt, w')
     /\ trace w' = trace sample_in_flight
                     ++ dbus_call (request_path sample_call) Close
                     :: task_return cancelled_by_caller :: rest
     /\ resolutions rest = []
     /\ call w' = None)
  /\ exists w id,
       (xdp_portal_usb_acquire_devices sample_object_path sample_request_prefix
          (Some (xdp_parent 1)) one_device null_locals 7
          >> run sample_object_path sample_request_prefix
               ([Cancelled] ++ ParentExported (Some "x11:2a") wild_locals 9
                            :: replicate 2 Cancelled))
         (idle "1_42" (Some false) 0) = inr (tt, w)
       /\ resolutions (trace w) = []
       /\ bus_calls (trace w) =
            [(Some sample_object_path,
              AcquireDevices "x11:2a" (map add_to_variant one_device)
                (<["handle_token" := VString (handle_token 9)]> ∅))]
       /\ is_Some (call w)
       /\ cancellable w =
            Some {| is_cancelled := true;
                    handlers := [(id, acquire_cancelled_hook)] |}.
Proof.
  split.
  - apply (proj1 (proj1 (cancellation_of_a_call_in_flight
                           sample_object_path sample_request_prefix)
                        acquire_cancelled_hook sample_call sample_in_flight
                        ltac:(split; [reflexivity|];
                              split; [simpl; lia|reflexivity]))).
  - apply (proj2 (cancellation_of_a_call_in_flight
                    sample_object_path sample_request_prefix)
                 "1_42" 0 (xdp_parent 1) one_device null_locals 7%Z
                 [Cancelled] "x11:2a" wild_locals 9%Z 2).
    + repeat constructor; intros (handle & locals & random & Hev);
        discriminate.
    + reflexivity.
    + reflexivity.
    + reflexivity.
Defined.

(** ** Teardown of the USB session *)

Section UsbSessionFacts.
Import UsbSession.
Context {SessionPrivate : Type}.
Variable xdp_session_close : SessionPrivate -> SessionPrivate.

Lemma destroy_active session parent id (w : Objects SessionPrivate) s :
  usb_sessions w !! session =
    Some {| parent_session := Some parent; signal_id := id |} ->
  sessions w !! parent = Some s ->
  weak_refs s = [session] ->
  id <> 0 ->
  destroy session w =
    Some {| sessions := if bool_decide (ref_count s <= 1)
                        then delete parent (sessions w)
                        else <[parent := released s]> (sessions w);
            usb_sessions := delete session (usb_sessions w);
            bus_signals := filter (fun x => x <> id) (bus_signals w);
            next_id := next_id w;
            log := log w ++ [signal_unsubscribe id] |}.
Proof.
  intros Hsession Hparent Hweak Hid.
  destruct w as [ss us subs nid lg]; simpl in *.
  unfold destroy, xdp_usb_session_finalize.
  simpl. rewrite Hsession. simpl. rewrite Hparent. simpl.
  rewrite bool_decide_eq_true_2 by done.
  unfold g_object_unref. simpl.
  rewrite !lookup_alter_eq, Hparent. simpl.
  rewrite Hweak. simpl.
  rewrite (bool_decide_eq_true_2 (session = session)) by done.
  destruct (bool_decide (ref_count s <= 1)); simpl.
  - unfold set_sessions, set_usb_sessions; simpl.
    by rewrite !delete_alter_eq.
  - unfold set_sessions, set_usb_sessions; simpl.
    by rewrite !insert_alter_eq, !delete_alter_eq.
Qed.

Lemma close_active session parent id (w : Objects SessionPrivate) s :
  usb_sessions w !! session =
    Some {| parent_session := Some parent; signal_id := id |} ->
  sessions w !! parent = Some s ->
  xdp_usb_session_close xdp_session_close session w =
    Some (set_sessions
            (<[parent := with_private (xdp_session_close (private s)) s]>
               (sessions w)) w).
Proof.
  intros Hsession Hparent. unfold xdp_usb_session_close.
  rewrite Hsession. simpl. by rewrite Hparent.
Qed.

(** C8 (as the code has it): for a USB session as [_xdp_usb_session_new]
    leaves it, closing it and then destroying it leaves the USB sessions,
    the bus subscriptions, the log and the id counter exactly as
    destroying it directly does, and the generic session too when the USB
    session held the last reference to it.  A generic session that
    survives has, after the explicit close, what [xdp_session_close] made
    of it, and after the destruction alone what it had:
    [xdp_usb_session_finalize] does not close the session.  After the
    teardown the USB session is gone, a parent that is still alive has a
    NULL backlink, and the DeviceEvents subscription has been unsubscribed
    exactly once. *)
Theorem close_then_destroy_closes_the_session session parent id
    (w : Objects SessionPrivate) :
  Active session parent id w ->
  exists s w_closed w1 w2,
    sessions w !! parent = Some s
    /\ xdp_usb_session_close xdp_session_close session w = Some w_closed
    /\ destroy session w_closed = Some w1
    /\ destroy session w = Some w2
    /\ usb_sessions w1 = usb_sessions w2
    /\ bus_signals w1 = bus_signals w2
    /\ log w1 = log w2
    /\ next_id w1 = next_id w2
    /\ sessions w1 =
         (if bool_decide (ref_count s <= 1) then sessions w2
          else <[parent := with_private (xdp_session_close (private s))
                             (released s)]> (sessions w2))
    /\ usb_sessions w1 !! session = None
    /\ (forall s', sessions w1 !! parent = Some s' -> usb_session s' = None)
    /\ log w1 = log w ++ [signal_unsubscribe id]
    /\ id ∉ bus_signals w1.
Proof.
  intros [Hsession (s & Hparent & Hback & Hweak) Hid Hsub].
  exists s. eexists _, _, _.
  split; [done|].
  split; [by eapply close_active|].
  split; [eapply destroy_active; simpl; [done|apply lookup_insert_eq|done..]|].
  split; [by eapply destroy_active|].
  simpl. split_and!; try done.
  - destruct (bool_decide (ref_count s <= 1)).
    + by rewrite delete_insert_eq.
    + by rewrite !insert_insert_eq.
  - apply lookup_delete_eq.
  - intros s'. destruct (bool_decide (ref_count s <= 1)).
    + by rewrite lookup_delete_eq.
    + rewrite lookup_insert_eq. by intros [= <-].
  - rewrite list_elem_of_filter. tauto.
Qed.
End UsbSessionFacts.

Lemma close_then_destroy_closes_the_session_witness :
  exists s w_closed w1 w2,
    UsbSession.sessions sample_shared_session !! 0 = Some s
    /\ UsbSession.xdp_usb_session_close SessionSpec.xdp_session_close 0
         sample_shared_session = Some w_closed
    /\ UsbSession.destroy 0 w_closed = Some w1
    /\ UsbSession.destroy 0 sample_shared_session = Some w2
    /\ UsbSession.usb_sessions w1 = UsbSession.usb_sessions w2
    /\ UsbSession.bus_signals w1 = UsbSession.bus_signals w2
    /\ UsbSession.log w1 = UsbSession.log w2
    /\ UsbSession.next_id w1 = UsbSession.next_id w2
    /\ UsbSession.sessions w1 =
         (if bool_decide (UsbSession.ref_count s <= 1)
          then UsbSession.sessions w2
          else <[0 := UsbSession.with_private
                        (SessionSpec.xdp_session_close (UsbSession.private s))
                        (UsbSession.released s)]> (UsbSession.sessions w2))
    /\ UsbSession.usb_sessions w1 !! 0 = None
    /\ (forall s', UsbSession.sessions w1 !! 0 = Some s' ->
                   UsbSession.usb_session s' = None)
    /\ UsbSession.log w1 =
         UsbSession.log sample_shared_session
           ++ [UsbSession.signal_unsubscribe 1]
    /\ 1 ∉ UsbSession.bus_signals w1.
Proof.
  apply (close_then_destroy_closes_the_session SessionSpec.xdp_session_close
           0 0 1 sample_shared_session).
  split.
  - reflexivity.
  - eexists. split; [reflexivity|]. split; reflexivity.
  - lia.
  - vm_compute. apply list_elem_of_here.
Defined.

(** C8, the claim as stated fails: with a generic session that the caller
    holds a reference to, closing the USB session and then destroying it
    leaves that session Closed, and destroying the USB session directly
    leaves it Active; the two teardowns do not have the same effect. *)
Lemma close_then_destroy_differs_from_destroy :
  (w ← UsbSession.xdp_usb_session_close SessionSpec.xdp_session_close 0
         sample_shared_session;
   w ← UsbSession.destroy 0 w;
   UsbSession.private <$> UsbSession.sessions w !! 0)
  = Some SessionSpec.Closed
  /\ (w ← UsbSession.destroy 0 sample_shared_session;
      UsbSession.private <$> UsbSession.sessions w !! 0)
     = Some SessionSpec.Active
  /\ (w ← UsbSession.xdp_usb_session_close SessionSpec.xdp_session_close 0
            sample_shared_session;
      UsbSession.destroy 0 w)
     <> UsbSession.destroy 0 sample_shared_session.
Proof.
  split; [by vm_compute|]. split; [by vm_compute|].
  intros H.
  apply (f_equal (fun o => w ← o;
                   UsbSession.private <$> UsbSession.sessions w !! 0)) in H.
  vm_compute in H. discriminate.
Qed.

(** ** The copy of the device requests *)

Section MemFacts.
Import Mem.

Lemma fresh_unused (h : heap) : h !! fresh (dom h) = None.
Proof. apply not_elem_of_dom, is_fresh. Qed.

Lemma read_request_weaken (h h' : heap) p v :
  h ⊆ h' -> read_request h p = Some v -> read_request h' p = Some v.
Proof.
  intros Hsub. unfold read_request.
  destruct (h !! p) as [[|[s|] w|]|] eqn:Hp; try done.
  destruct (h !! s) as [[str| |]|] eqn:Hs; try done.
  intros [= <-].
  by rewrite (lookup_weaken _ _ _ _ Hp Hsub), (lookup_weaken _ _ _ _ Hs Hsub).
Qed.

Lemma copy_of_weaken (h0 h h' : heap) q v :
  h ⊆ h' -> copy_of h0 h q v -> copy_of h0 h' q v.
Proof.
  intros Hsub (s & ? & ? & Hq & Hs). exists s.
  split_and!; [done|done|by eapply lookup_weaken..].
Qed.

Lemma read_copy_of (h0 h h2 : heap) q v :
  copy_of h0 h q v ->
  (forall l, h0 !! l = None -> h2 !! l = h !! l) ->
  read_request h2 q = Some v.
Proof.
  intros (s & Hq0 & Hs0 & Hq & Hs) Hframe. unfold read_request.
  rewrite (Hframe q Hq0), Hq, (Hframe s Hs0), Hs. by destruct v.
Qed.

Lemma copy_request (h0 h : heap) p v :
  h0 ⊆ h ->
  read_request h p = Some v ->
  exists q h',
    xdp_usb_device_acquire_request_copy p h = Some (q, h')
    /\ h ⊆ h' /\ copy_of h0 h' q v.
Proof.
  intros H0 Hread. unfold read_request in Hread.
  destruct (h !! p) as [[|[s|] w|]|] eqn:Hp; try done.
  destruct (h !! s) as [[str| |]|] eqn:Hs; try done.
  injection Hread as <-.
  unfold xdp_usb_device_acquire_request_copy,
    xdp_usb_device_acquire_request_new, g_strdup, alloc.
  rewrite Hp. simpl.
  pose proof (fresh_unused h) as Hdev.
  set (dev := fresh (dom h)) in *. clearbody dev.
  rewrite insert_insert_eq.
  assert (Hne : dev <> s) by congruence.
  rewrite lookup_insert_ne, Hs by done. simpl.
  pose proof (fresh_unused (<[dev := acquire_request None w]> h)) as Hl1.
  set (l := fresh (dom (<[dev := acquire_request None w]> h))) in *.
  clearbody l.
  apply lookup_insert_None in Hl1 as [Hl Hdl].
  eexists _, _. split; [reflexivity|]. split.
  - apply map_subseteq_spec. intros i x Hi.
    rewrite !lookup_insert_ne by congruence. done.
  - exists l. split_and!.
    + eapply lookup_weaken_None; [exact Hdev|done].
    + eapply lookup_weaken_None; [exact Hl|done].
    + simpl. apply lookup_insert_eq.
    + simpl. rewrite lookup_insert_ne by done. apply lookup_insert_eq.
Qed.

Lemma copy_elements_spec (h0 : heap) pdata : forall (h : heap) vs,
  h0 ⊆ h ->
  Forall2 (fun p v => read_request h p = Some v) pdata vs ->
  exists qs h',
    copy_elements pdata h = Some (qs, h')
    /\ h ⊆ h' /\ Forall2 (copy_of h0 h') qs vs.
Proof.
  induction pdata as [|p pdata IH]; intros h vs H0 Hread.
  - apply Forall2_nil_inv_l in Hread as ->.
    exists [], h. by split_and!.
  - apply Forall2_cons_inv_l in Hread as (v & vs' & Hp & Hrest & ->).
    destruct (copy_request h0 h p v H0 Hp) as (q & h1 & Hcopy & Hsub1 & Hq).
    destruct (IH h1 vs') as (qs & h2 & Hcopies & Hsub2 & Hqs).
    { by etrans. }
    { eapply Forall2_impl; [done|]. intros p' v' ?.
      by eapply read_request_weaken. }
    exists (q :: qs), h2. simpl. rewrite Hcopy. simpl. rewrite Hcopies. simpl.
    split; [done|]. split; [by etrans|].
    constructor; [by eapply copy_of_weaken|done].
Qed.

(** C10: [g_ptr_array_copy] with [xdp_usb_device_acquire_request_copy] gives
    the call an array of new structs with new id strings, holding the same
    ids and writable flags; no cell of the caller's memory is changed; and
    whatever becomes of the caller's memory afterwards (freed, overwritten),
    the array the call holds still reads as the same requests, and the
    device array of the AcquireDevices request is built from them. *)
Theorem acquire_devices_copies_requests (h : heap) array requests :
  read_array h array = Some requests ->
  exists call_devices h',
    g_ptr_array_copy array h = Some (call_devices, h')
    /\ read_array h' call_devices = Some requests
    /\ h ⊆ h'
    /\ h !! call_devices = None
    /\ (exists pdata, h' !! call_devices = Some (ptr_array pdata)
                      /\ Forall2 (copy_of h h') pdata requests)
    /\ forall h2 : heap,
         (forall l, h !! l = None -> h2 !! l = h' !! l) ->
         read_array h2 call_devices = Some requests
         /\ devices_variant h2 call_devices
            = Some (map add_to_variant requests).
Proof.
  intros Hread. unfold read_array in Hread.
  destruct (h !! array) as [[| |pdata]|] eqn:Harray; try done.
  apply mapM_Some in Hread.
  unfold g_ptr_array_copy, alloc. rewrite Harray.
  pose proof (fresh_unused h) as Ha.
  set (a := fresh (dom h)) in *. clearbody a.
  set (h1 := <[a := ptr_array []]> h).
  assert (Hsub1 : h ⊆ h1) by by apply insert_subseteq.
  destruct (copy_elements_spec h1 pdata h1 requests) as (qs & h2 & Hcopy & Hsub2 & Hqs).
  { done. }
  { eapply Forall2_impl; [done|]. intros p v ?.
    by eapply read_request_weaken. }
  rewrite Hcopy. simpl.
  assert (Ha2 : h2 !! a = Some (ptr_array [])).
  { eapply lookup_weaken; [|done]. subst h1. apply lookup_insert_eq. }
  set (h' := <[a := ptr_array qs]> h2).
  assert (Hqs' : Forall2 (copy_of h h') qs requests).
  { eapply Forall2_impl; [done|]. intros q v (s & Hq1 & Hs1 & Hq & Hs).
    assert (q <> a) by (intros ->; subst h1; by rewrite lookup_insert_eq in Hq1).
    assert (s <> a) by (intros ->; subst h1; by rewrite lookup_insert_eq in Hs1).
    exists s. subst h'. rewrite !lookup_insert_ne by done.
    split_and!; [by eapply lookup_weaken_None..|done|done]. }
  assert (Hframe : forall h3 : heap,
            (forall l, h !! l = None -> h3 !! l = h' !! l) ->
            read_array h3 a = Some requests).
  { intros h3 H3. unfold read_array.
    rewrite (H3 a Ha). subst h'. rewrite lookup_insert_eq.
    apply mapM_Some. eapply Forall2_impl; [done|]. intros q v Hq.
    by eapply read_copy_of. }
  exists a, h'. split; [done|]. split_and!.
  - by apply Hframe.
  - apply map_subseteq_spec. intros i x Hi. subst h'.
    assert (a <> i) by congruence.
    rewrite lookup_insert_ne by done.
    eapply lookup_weaken; [done|]. by etrans.
  - done.
  - exists qs. split; [apply lookup_insert_eq|done].
  - intros h3 H3. split; [by apply Hframe|].
    unfold devices_variant. by rewrite (Hframe h3 H3).
Qed.
End MemFacts.

Lemma acquire_devices_copies_requests_witness :
  exists call_devices h',
    Mem.g_ptr_array_copy 0 Mem.two_requests = Some (call_devices, h')
    /\ Mem.read_array h' call_devices = Some
         [{| request_id := "usb:001"; writable := true |};
          {| request_id := "usb:002"; writable := false |}]
    /\ Mem.two_requests ⊆ h'
    /\ Mem.two_requests !! call_devices = None
    /\ (exists pdata, h' !! call_devices = Some (Mem.ptr_array pdata)
                      /\ Forall2 (Mem.copy_of Mem.two_requests h') pdata
                           [{| request_id := "usb:001"; writable := true |};
                            {| request_id := "usb:002"; writable := false |}])
    /\ forall h2 : gmap nat Mem.cell,
         (forall l, Mem.two_requests !! l = None -> h2 !! l = h' !! l) ->
         Mem.read_array h2 call_devices = Some
           [{| request_id := "usb:001"; writable := true |};
            {| request_id := "usb:002"; writable := false |}]
         /\ Mem.devices_variant h2 call_devices
            = Some (map add_to_variant
                      [{| request_id := "usb:001"; writable := true |};
                       {| request_id := "usb:002"; writable := false |}]).
Proof.
  apply (acquire_devices_copies_requests Mem.two_requests 0). reflexivity.
Defined.

(** The caller frees its array and the requests in it right after the call
    has begun: the call's copy still reads as the two requests. *)
Example caller_frees_its_requests :
  ('(call_devices, h) ← Mem.g_ptr_array_copy 0 Mem.two_requests;
   h ← Mem.g_ptr_array_free 0 h;
   Mem.devices_variant h call_devices)
  = Some (map add_to_variant
            [{| request_id := "usb:001"; writable := true |};
             {| request_id := "usb:002"; writable := false |}]).
Proof. vm_compute. reflexivity. Qed.

(** ** Creation of the USB session and teardown out of order *)

Lemma filter_all {A} (P : A -> Prop) `{forall x, Decision (P x)} (l : list A) :
  Forall P l -> filter P l = l.
Proof.
  induction 1 as [|x l Hx Hl IH]; [done|].
  by rewrite filter_cons, decide_True, IH.
Qed.

Section UsbSessionLifeFacts.
Import UsbSession.
Context {SessionPrivate : Type}.

Lemma usb_session_new_spec (fresh_private : SessionPrivate)
    (w : Objects SessionPrivate) :
  let parent := fresh (dom (sessions w)) in
  let session := fresh (dom (usb_sessions w)) in
  let id := S (next_id w) in
  _xdp_usb_session_new fresh_private w =
    Some (session,
          {| sessions :=
               <[parent := {| usb_session := Some session; ref_count := 1;
                              weak_refs := [session];
                              private := fresh_private |}]> (sessions w);
             usb_sessions :=
               <[session := {| parent_session := Some parent;
                               signal_id := id |}]> (usb_sessions w);
             bus_signals := bus_signals w ++ [id];
             next_id := id;
             log := log w ++ [signal_subscribe id] |}).
Proof.
  destruct w as [ss us subs nid lg]. simpl.
  unfold _xdp_usb_session_new, g_object_unref. simpl.
  rewrite !lookup_alter_eq, !lookup_insert_eq. simpl.
  unfold set_sessions, set_usb_sessions, emit; simpl.
  rewrite !alter_insert_eq, !insert_insert_eq. reflexivity.
Qed.

(** X4: [_xdp_usb_session_new] always succeeds and leaves a USB session in
    the state the teardown expects: a new USB session and a new generic
    session, linked both ways (strong reference, backlink, one weak
    notification), the DeviceEvents subscription live under a non-zero id;
    once the function's own reference is dropped the USB session holds the
    only reference to the generic session; [xdp_usb_session_get_session]
    returns that session; no other object is touched. *)
Theorem usb_session_new_is_active (fresh_private : SessionPrivate)
    (w : Objects SessionPrivate) :
  exists session parent id w',
    _xdp_usb_session_new fresh_private w = Some (session, w')
    /\ Active session parent id w'
    /\ sessions w !! parent = None
    /\ usb_sessions w !! session = None
    /\ sessions w' !! parent =
         Some {| usb_session := Some session; ref_count := 1;
                 weak_refs := [session]; private := fresh_private |}
    /\ xdp_usb_session_get_session session w' = Some parent
    /\ log w' = log w ++ [signal_subscribe id]
    /\ (forall p, p <> parent -> sessions w' !! p = sessions w !! p)
    /\ (forall u, u <> session -> usb_sessions w' !! u = usb_sessions w !! u).
Proof.
  eexists _, _, _, _. split; [apply usb_session_new_spec|].
  simpl. split_and!.
  - split; simpl.
    + apply lookup_insert_eq.
    + eexists. split; [apply lookup_insert_eq|done].
    + done.
    + set_solver.
  - apply not_elem_of_dom, is_fresh.
  - apply not_elem_of_dom, is_fresh.
  - apply lookup_insert_eq.
  - unfold xdp_usb_session_get_session. simpl.
    by rewrite lookup_insert_eq.
  - done.
  - intros p Hp. by rewrite lookup_insert_ne.
  - intros u Hu. by rewrite lookup_insert_ne.
Qed.

(** X5: creating a USB session and dropping it again leaves the process as
    it was: both objects are gone, the bus subscriptions are those from
    before, and the log has gained the subscription and its
    unsubscription and no critical message.  (Subscription ids in use are
    at most [next_id].) *)
Theorem usb_session_new_then_destroy (fresh_private : SessionPrivate)
    (w : Objects SessionPrivate) :
  (forall x, x ∈ bus_signals w -> x <= next_id w) ->
  exists session w1 w2,
    _xdp_usb_session_new fresh_private w = Some (session, w1)
    /\ destroy session w1 = Some w2
    /\ sessions w2 = sessions w
    /\ usb_sessions w2 = usb_sessions w
    /\ bus_signals w2 = bus_signals w
    /\ log w2 = log w ++ [signal_subscribe (S (next_id w));
                          signal_unsubscribe (S (next_id w))].
Proof.
  intros Hids.
  eexists _, _, _. split; [apply usb_session_new_spec|].
  split.
  { eapply destroy_active; simpl;
      [apply lookup_insert_eq|apply lookup_insert_eq|done|done]. }
  simpl. split_and!.
  - rewrite delete_insert_eq. apply delete_id.
    apply not_elem_of_dom, is_fresh.
  - rewrite delete_insert_eq. apply delete_id.
    apply not_elem_of_dom, is_fresh.
  - rewrite filter_app, filter_cons, decide_False, filter_nil, app_nil_r
      by (intros H; by apply H).
    apply filter_all, Forall_forall. intros x Hx. apply Hids in Hx. lia.
  - by rewrite <- app_assoc.
Qed.

(** X6: when the generic session loses its last reference while the USB
    session is alive ("you lost count of your session refs"), the weak
    notification clears the USB session's parent pointer, so
    [xdp_usb_session_get_session] returns NULL; finalizing the USB session
    afterwards takes the branch that only logs a second critical message:
    the DeviceEvents subscription is never unsubscribed and stays on the
    bus after the USB session is gone. *)
Theorem parent_destroyed_first_leaks_subscription session parent id
    (w : Objects SessionPrivate) (s : XdpSession SessionPrivate) :
  Active session parent id w ->
  sessions w !! parent = Some s ->
  ref_count s <= 1 ->
  exists w1 w2,
    g_object_unref parent w = Some w1
    /\ xdp_usb_session_get_session session w1 = None
    /\ destroy session w1 = Some w2
    /\ log w2 = log w ++
         [g_critical "XdpSession destroyed before XdpUsbSesssion, you lost count of your session refs";
          g_critical "XdpSession destroyed before XdpInputCaptureSesssion, you lost count of your session refs"]
    /\ bus_signals w2 = bus_signals w
    /\ id ∈ bus_signals w2
    /\ usb_sessions w2 !! session = None
    /\ sessions w2 !! parent = None.
Proof.
  intros [Hsession (s' & Hparent & Hback & Hweak) Hid Hsub] Hs Hrc.
  rewrite Hparent in Hs. injection Hs as ->.
  destruct w as [ss us subs nid lg]; simpl in *.
  unfold g_object_unref. simpl. rewrite Hparent. simpl.
  rewrite bool_decide_eq_true_2 by done. rewrite Hweak. simpl.
  eexists _, _. split; [reflexivity|].
  unfold xdp_usb_session_get_session, destroy, xdp_usb_session_finalize.
  simpl. rewrite lookup_alter_eq, Hsession. simpl.
  split; [done|]. split; [reflexivity|]. simpl.
  split_and!.
  - by rewrite <- app_assoc.
  - done.
  - done.
  - apply lookup_delete_eq.
  - apply lookup_delete_eq.
Qed.
End UsbSessionLifeFacts.

Lemma usb_session_new_then_destroy_witness :
  exists session w1 w2,
    UsbSession._xdp_usb_session_new false UsbSession.empty = Some (session, w1)
    /\ UsbSession.destroy session w1 = Some w2
    /\ UsbSession.sessions w2 = ∅
    /\ UsbSession.usb_sessions w2 = ∅
    /\ UsbSession.bus_signals w2 = []
    /\ UsbSession.log w2 = [UsbSession.signal_subscribe 1;
                            UsbSession.signal_unsubscribe 1].
Proof.
  apply (usb_session_new_then_destroy false UsbSession.empty).
  intros x Hx. simpl in Hx. by apply elem_of_nil in Hx.
Defined.

Lemma parent_destroyed_first_leaks_subscription_witness :
  exists w1 w2,
    UsbSession.g_object_unref 0 sample_usb_session = Some w1
    /\ UsbSession.xdp_usb_session_get_session 0 w1 = None
    /\ UsbSession.destroy 0 w1 = Some w2
    /\ UsbSession.log w2 = UsbSession.log sample_usb_session ++
         [UsbSession.g_critical "XdpSession destroyed before XdpUsbSesssion, you lost count of your session refs";
          UsbSession.g_critical "XdpSession destroyed before XdpInputCaptureSesssion, you lost count of your session refs"]
    /\ UsbSession.bus_signals w2 = UsbSession.bus_signals sample_usb_session
    /\ 1 ∈ UsbSession.bus_signals w2
    /\ UsbSession.usb_sessions w2 !! 0 = None
    /\ UsbSession.sessions w2 !! 0 = None.
Proof.
  apply (parent_destroyed_first_leaks_subscription 0 0 1 sample_usb_session
           {| UsbSession.usb_session := Some 0; UsbSession.ref_count := 1;
              UsbSession.weak_refs := [0]; UsbSession.private := false |}).
  - split.
    + reflexivity.
    + eexists. split; [reflexivity|]. split; reflexivity.
    + lia.
    + vm_compute. apply list_elem_of_here.
  - reflexivity.
  - simpl. lia.
Defined.

(** ** Releasing the copy of the device requests *)

Section MemReleaseFacts.
Import Mem.

Lemma copy_request_adds (h : heap) p v :
  read_request h p = Some v ->
  exists q s,
    xdp_usb_device_acquire_request_copy p h =
      Some (q, <[q := acquire_request (Some s) (writable v)]>
                 (<[s := chars (request_id v)]> h))
    /\ h !! q = None /\ h !! s = None /\ q <> s.
Proof.
  intros Hread. unfold read_request in Hread.
  destruct (h !! p) as [[|[s|] w|]|] eqn:Hp; try done.
  destruct (h !! s) as [[str| |]|] eqn:Hs; try done.
  injection Hread as <-.
  unfold xdp_usb_device_acquire_request_copy,
    xdp_usb_device_acquire_request_new, g_strdup, alloc.
  rewrite Hp. simpl.
  pose proof (fresh_unused h) as Hdev.
  set (dev := fresh (dom h)) in *. clearbody dev.
  rewrite insert_insert_eq.
  assert (Hne : dev <> s) by congruence.
  rewrite lookup_insert_ne, Hs by done. simpl.
  pose proof (fresh_unused (<[dev := acquire_request None w]> h)) as Hl1.
  set (l := fresh (dom (<[dev := acquire_request None w]> h))) in *.
  clearbody l.
  apply lookup_insert_None in Hl1 as [Hl Hdl].
  exists dev, l. split_and!; [|done..].
  do 2 f_equal. apply map_eq. intros i.
  destruct (decide (i = dev)) as [->|]; [by rewrite !lookup_insert_eq|].
  rewrite !(lookup_insert_ne _ dev) by done.
  destruct (decide (i = l)) as [->|]; [by rewrite !lookup_insert_eq|].
  rewrite !(lookup_insert_ne _ l) by done.
  by rewrite lookup_insert_ne.
Qed.

(** Freeing a struct whose cells are [d]'s leaves the rest of the heap. *)
Lemma free_added (d g : heap) q s w str :
  d !! q = None -> d !! s = None -> g !! q = None -> g !! s = None ->
  q <> s ->
  xdp_usb_device_acquire_request_free q
    (d ∪ <[q := acquire_request (Some s) w]> (<[s := chars str]> g))
  = Some (d ∪ g).
Proof.
  intros Hdq Hds Hgq Hgs Hne.
  unfold xdp_usb_device_acquire_request_free.
  rewrite lookup_union_r, lookup_insert_eq by done.
  f_equal. apply map_eq. intros i.
  destruct (decide (i = q)) as [->|Hq].
  { rewrite lookup_delete_eq, lookup_union_r by done. by rewrite Hgq. }
  rewrite lookup_delete_ne by done.
  destruct (decide (i = s)) as [->|Hs].
  { rewrite lookup_delete_eq, lookup_union_r by done. by rewrite Hgs. }
  rewrite lookup_delete_ne by done.
  rewrite !lookup_union. by rewrite !lookup_insert_ne.
Qed.

(** The cells [copy_elements] adds can be taken off again by freeing the
    copies, whatever the rest of the heap has become. *)
Lemma copy_elements_free pdata : forall (h : heap) vs,
  Forall2 (fun p v => read_request h p = Some v) pdata vs ->
  exists qs d,
    copy_elements pdata h = Some (qs, d ∪ h)
    /\ d ##ₘ h
    /\ forall g : heap, d ##ₘ g -> free_elements qs (d ∪ g) = Some g.
Proof.
  induction pdata as [|p pdata IH]; intros h vs Hread.
  - exists [], ∅. simpl. rewrite (left_id ∅ (∪)).
    split; [done|]. split; [apply map_disjoint_empty_l|].
    intros g _. by rewrite (left_id ∅ (∪)).
  - apply Forall2_cons_inv_l in Hread as (v & vs' & Hp & Hrest & ->).
    destruct (copy_request_adds h p v Hp) as (q & s & Hcopy & Hq & Hs & Hne).
    set (h1 := <[q := acquire_request (Some s) (writable v)]>
                 (<[s := chars (request_id v)]> h)) in *.
    assert (Hsub : h ⊆ h1).
    { subst h1. etrans; [|apply insert_subseteq].
      - by apply insert_subseteq.
      - by rewrite lookup_insert_ne. }
    destruct (IH h1 vs') as (qs & d & Hcopies & Hdisj & Hfree).
    { eapply Forall2_impl; [done|]. intros p' v' ?.
      by eapply read_request_weaken. }
    assert (Hdq : d !! q = None).
    { eapply map_disjoint_Some_r; [done|]. subst h1. apply lookup_insert_eq. }
    assert (Hds : d !! s = None).
    { eapply map_disjoint_Some_r; [done|]. subst h1.
      rewrite lookup_insert_ne by done. apply lookup_insert_eq. }
    set (d1 := <[q := acquire_request (Some s) (writable v)]>
                 (<[s := chars (request_id v)]> (∅ : heap))).
    assert (Hh1 : forall g : heap,
              d ∪ <[q := acquire_request (Some s) (writable v)]>
                    (<[s := chars (request_id v)]> g) = (d ∪ d1) ∪ g).
    { intros g. subst d1. rewrite <- (assoc_L (∪)).
      by rewrite <- !insert_union_l, (left_id_L ∅ (∪)). }
    exists (q :: qs), (d ∪ d1). simpl. rewrite Hcopy. simpl.
    rewrite Hcopies. simpl. split; [by rewrite <- Hh1|].
    split.
    { apply map_disjoint_union_l. split.
      - eapply map_disjoint_weaken_r; done.
      - subst d1. apply map_disjoint_insert_l. split; [done|].
        apply map_disjoint_insert_l. split; [done|].
        apply map_disjoint_empty_l. }
    intros g Hg.
    apply map_disjoint_union_l in Hg as [Hdg Hd1g].
    assert (Hgq : g !! q = None).
    { eapply map_disjoint_Some_l; [done|]. subst d1. apply lookup_insert_eq. }
    assert (Hgs : g !! s = None).
    { eapply map_disjoint_Some_l; [done|]. subst d1.
      rewrite lookup_insert_ne by done. apply lookup_insert_eq. }
    rewrite <- Hh1, free_added by done. simpl.
    by apply Hfree.
Qed.

(** X7: what [g_ptr_array_copy] with
    [xdp_usb_device_acquire_request_copy] allocates for a call is exactly
    what freeing the copy with [xdp_usb_device_acquire_request_free] on
    its elements releases: after the copy and the release the heap is the
    heap from before the call, the caller's array, structs and strings
    included. *)
Theorem copy_then_free_restores_heap (h : heap) array requests :
  read_array h array = Some requests ->
  exists call_devices h',
    g_ptr_array_copy array h = Some (call_devices, h')
    /\ g_ptr_array_free call_devices h' = Some h.
Proof.
  intros Hread. unfold read_array in Hread.
  destruct (h !! array) as [[| |pdata]|] eqn:Harray; try done.
  apply mapM_Some in Hread.
  unfold g_ptr_array_copy, alloc. rewrite Harray.
  pose proof (fresh_unused h) as Ha.
  set (a := fresh (dom h)) in *. clearbody a.
  destruct (copy_elements_free pdata (<[a := ptr_array []]> h) requests)
    as (qs & d & Hcopy & Hdisj & Hfree).
  { eapply Forall2_impl; [done|]. intros p v ?.
    apply (read_request_weaken h); [by apply insert_subseteq|done]. }
  rewrite Hcopy. simpl. eexists _, _. split; [reflexivity|].
  unfold g_ptr_array_free. rewrite lookup_insert_eq.
  assert (Hda : d !! a = None).
  { eapply map_disjoint_Some_r; [done|]. apply lookup_insert_eq. }
  rewrite insert_union_r, insert_insert_eq by done.
  rewrite Hfree.
  - simpl. rewrite delete_insert_eq. f_equal. by apply delete_id.
  - apply map_disjoint_insert_r. split; [done|].
    eapply map_disjoint_weaken_r; [done|]. by apply insert_subseteq.
Qed.
End MemReleaseFacts.

Lemma copy_then_free_restores_heap_witness :
  exists call_devices h',
    Mem.g_ptr_array_copy 0 Mem.two_requests = Some (call_devices, h')
    /\ Mem.g_ptr_array_free call_devices h' = Some Mem.two_requests.
Proof.
  apply (copy_then_free_restores_heap Mem.two_requests 0
           [{| request_id := "usb:001"; writable := true |};
            {| request_id := "usb:002"; writable := false |}]).
  reflexivity.
Defined.

(** X8: the device array of the AcquireDevices request determines the
    requests: [add_to_variant] keeps the id and the writable flag apart for
    each device, so two request lists with the same payload are the same
    list. *)
Theorem add_to_variant_keeps_requests
    (requests1 requests2 : list XdpUsbDeviceAcquireRequest) :
  map add_to_variant requests1 = map add_to_variant requests2 ->
  requests1 = requests2.
Proof.
  revert requests2.
  induction requests1 as [|[i1 w1] l1 IH]; intros [|[i2 w2] l2] H;
    try done.
  pose proof (f_equal (fun l => fst <$> head l) H) as Hi.
  pose proof (f_equal (fun l : list device_entry =>
                         e ← head l; e.2 !! "writable") H) as Hw.
  pose proof (f_equal tail H) as Hrest.
  cbn [map head tail fmap option_fmap option_map mbind option_bind
       add_to_variant fst snd request_id writable] in Hi, Hw, Hrest.
  rewrite !lookup_insert_eq in Hw.
  f_equal; [congruence|by apply IH].
Qed.

Lemma add_to_variant_keeps_requests_witness :
  map xdp_usb_device_acquire_request_copy one_device = one_device.
Proof.
  apply (add_to_variant_keeps_requests
           (map xdp_usb_device_acquire_request_copy one_device) one_device).
  reflexivity.
Defined.

(** ** Outcome of the asynchronous calls *)

Ltac usb_start := unfold start in *.

(** Closes a case of the invariant once the callback has been computed. *)
Ltac accounted_tac Hrun Hres :=
  try discriminate Hrun;
  injection Hrun as <-; unfold accounted; simpl;
  rewrite ?resolutions_app, ?Hres; simpl; eauto.

Section OutcomeFacts.
Variable PORTAL_OBJECT_PATH : string.
Variable REQUEST_PATH_PREFIX : string.

Abbreviation run := (run PORTAL_OBJECT_PATH REQUEST_PATH_PREFIX).
Abbreviation step := (step PORTAL_OBJECT_PATH REQUEST_PATH_PREFIX).
Abbreviation start := (start PORTAL_OBJECT_PATH REQUEST_PATH_PREFIX).
Abbreviation run_hooks := (run_hooks).
Abbreviation parent_exported :=
  (parent_exported PORTAL_OBJECT_PATH REQUEST_PATH_PREFIX).
Abbreviation xdp_portal_usb_acquire_devices :=
  (xdp_portal_usb_acquire_devices PORTAL_OBJECT_PATH REQUEST_PATH_PREFIX).
Abbreviation xdp_portal_usb_create_session :=
  (xdp_portal_usb_create_session PORTAL_OBJECT_PATH).

Lemma accounted_start op name given first_id w :
  start op (idle name given first_id) = inr (tt, w) ->
  accounted w.
Proof.
  intros Hstart.
  destruct op as [random|[par|] requests [[| |o] [| |d]] random],
    given as [b|]; usb_start.
  all: usb_step.
  all: try discriminate Hstart.
  all: by injection Hstart as <-.
Qed.

(** Each callback keeps the account: it resolves the task only together
    with releasing the call, and it cannot resolve a call that has been
    released. *)
Lemma accounted_cancelled_cb w w' :
  accounted w -> usb_call_cancelled_cb w = inr (tt, w') -> accounted w'.
Proof.
  intros Hw Hrun. unfold accounted in Hw.
  destruct w as [call0 sender0 subs canc pend rt nid tr]; simpl in *.
  destruct call0 as [[sid path hid par ph devs]|]; usb_step.
  all: accounted_tac Hrun Hw.
Qed.

Lemma accounted_acquire_cancelled_cb w w' :
  accounted w -> acquire_cancelled_cb w = inr (tt, w') -> accounted w'.
Proof.
  intros Hw Hrun. unfold accounted in Hw.
  destruct w as [call0 sender0 subs canc pend rt nid tr]; simpl in *.
  destruct call0 as [[[|sid] path [|hid] par ph devs]|]; usb_step.
  all: accounted_tac Hrun Hw.
Qed.

Lemma accounted_session_call_returned ret w w' :
  accounted w -> usb_session_call_returned ret w = inr (tt, w') ->
  accounted w'.
Proof.
  intros Hw Hrun. unfold accounted in Hw.
  destruct w as [call0 sender0 subs canc pend rt nid tr]; simpl in *.
  destruct call0 as [[[|sid] path [|hid] par ph devs]|], ret; usb_step.
  all: accounted_tac Hrun Hw.
Qed.

Lemma accounted_call_returned ret w w' :
  accounted w -> usb_call_returned ret w = inr (tt, w') -> accounted w'.
Proof.
  intros Hw Hrun. unfold accounted in Hw.
  destruct w as [call0 sender0 subs canc pend rt nid tr]; simpl in *.
  destruct call0 as [[[|sid] path [|hid] par ph devs]|], ret; usb_step.
  all: accounted_tac Hrun Hw.
Qed.

Lemma accounted_response_received parameters locals w w' :
  accounted w ->
  acquire_response_received parameters locals w = inr (tt, w') ->
  accounted w'.
Proof.
  intros Hw Hrun. unfold accounted in Hw.
  destruct (g_variant_get parameters "(s@a(sa{sv}))") as [stored|] eqn:Hget.
  { rewrite (acquire_response_received_stored _ _ _ _ Hget) in Hrun.
    destruct w as [call0 sender0 subs canc pend rt nid tr]; simpl in *.
    destruct call0 as [[sid path [|hid] par ph devs]|]; usb_step.
    all: discriminate. }
  rewrite (acquire_response_received_refused _ _ _ Hget) in Hrun.
  destruct (response_outcome locals) as [f|r].
  all: destruct w as [call0 sender0 subs canc pend rt nid tr]; simpl in *.
  all: destruct call0 as [[[|sid] path [|hid] par ph devs]|]; usb_step.
  all: accounted_tac Hrun Hw.
Qed.

Lemma accounted_parent_exported handle locals random w w' :
  accounted w -> parent_exported handle locals random w = inr (tt, w') ->
  accounted w'.
Proof.
  intros Hw Hrun. unfold accounted in Hw.
  destruct w as [call0 sender0 subs canc pend rt nid tr]; simpl in *.
  destruct call0 as [[sid path hid par ph devs]|], handle,
    locals as [[| |o] [| |d]], canc as [g|]; usb_step.
  all: accounted_tac Hrun Hw.
Qed.

Lemma accounted_run_hooks hs : forall w w',
  accounted w -> run_hooks hs w = inr (tt, w') -> accounted w'.
Proof.
  induction hs as [|[n h] hs IH]; intros w w' Hw Hrun.
  - by injection Hrun as <-.
  - simpl in Hrun. apply bind_inv in Hrun as ([] & w1 & Hhook & Hrun).
    eapply IH; [|done].
    unfold run_hook in Hhook. apply bind_inv in Hhook as (g & w0 & Hg & Hhook).
    injection Hg as <- <-. unfold when in Hhook.
    match type of Hhook with
    | (if ?b then _ else _) _ = _ => destruct b
    end; [|by injection Hhook as <-].
    destruct h; simpl in Hhook.
    + by eapply accounted_cancelled_cb.
    + by eapply accounted_acquire_cancelled_cb.
Qed.

Lemma accounted_step ev w w' :
  accounted w -> step ev w = inr (tt, w') -> accounted w'.
Proof.
  intros Hw Hstep.
  destruct ev as [|handle locals random|ret|object_path parameters locals];
    unfold step in Hstep.
  - apply bind_inv in Hstep as (g & w0 & Hg & Hstep).
    injection Hg as <- <-.
    destruct (cancellable w) as [[[] hs]|] eqn:Hc;
      [by injection Hstep as <-| |by injection Hstep as <-].
    apply bind_inv in Hstep as ([] & w1 & Hmod & Hstep).
    injection Hmod as <-.
    eapply accounted_run_hooks; [|done].
    by destruct w.
  - by eapply accounted_parent_exported.
  - apply bind_inv in Hstep as (p & w0 & Hp & Hstep).
    injection Hp as <- <-.
    destruct (pending w) as [[cb wc]|]; [|by injection Hstep as <-].
    apply bind_inv in Hstep as (g & w0 & Hg & Hstep).
    injection Hg as <- <-.
    apply bind_inv in Hstep as (t & w0 & Ht & Hstep).
    injection Ht as <- <-.
    apply bind_inv in Hstep as ([] & w1 & Hmod & Hstep).
    injection Hmod as <-.
    assert (accounted (set_pending None w)) by by destruct w.
    destruct cb.
    + by eapply accounted_session_call_returned.
    + by eapply accounted_call_returned.
  - apply bind_inv in Hstep as (subs & w0 & Hsubs & Hstep).
    injection Hsubs as <- <-. unfold when in Hstep.
    destruct (bool_decide _); [|by injection Hstep as <-].
    by eapply accounted_response_received.
Qed.

Lemma accounted_run evs : forall w w',
  accounted w ->
  run evs w = inr (tt, w') ->
  accounted w'.
Proof.
  induction evs as [|ev evs IH]; intros w w' Hw Hrun; simpl in Hrun.
  - by injection Hrun as <-.
  - apply bind_inv in Hrun as ([] & w1 & Hstep & Hrun).
    eapply IH; [|done]. by eapply accounted_step.
Qed.

(** X9: in every run of the main loop that does not fault, whatever the
    events, their order, the messages they carry and what the unassigned
    locals hold, the task of a USB call is resolved at most once, and it is
    resolved exactly when the call has been released. *)
Theorem task_resolved_once_when_released op name given first_id evs w :
  (start op >> run evs) (idle name given first_id) = inr (tt, w) ->
  accounted w
  /\ length (resolutions (trace w)) <= 1
  /\ (call w = None <-> length (resolutions (trace w)) = 1).
Proof.
  intros Hrun. apply bind_inv in Hrun as ([] & w0 & Hstart & Hrun).
  assert (Hw : accounted w).
  { eapply accounted_run; [|done]. by eapply accounted_start. }
  split; [done|]. unfold accounted in Hw.
  destruct (call w) as [c|].
  - rewrite Hw. simpl. split; [lia|]. split; [done|lia].
  - destruct Hw as [r ->]. simpl. split; [lia|]. done.
Qed.

(** X10: the CreateSession call.  [xdp_portal_usb_create_session] makes one
    method call, CreateSession on the portal object with the option
    session_handle_token = "portal<random>", and subscribes to nothing;
    when that call completes the task is resolved once, with the session
    for the returned path or with the call's error (the cancellation error
    when the cancellable had fired before the call was made), the handler
    on the cancellable is disconnected and the call is released. *)
Theorem create_session_completes name given next_id random ret :
  exists w,
    (xdp_portal_usb_create_session random >> run [CallReturned ret])
      (idle name given next_id) = inr (tt, w)
    /\ resolutions (trace w) = [session_outcome given ret]
    /\ bus_calls (trace w) =
         [(Some PORTAL_OBJECT_PATH,
           CreateSession (<["session_handle_token" :=
                              VString (handle_token random)]> ∅))]
    /\ call w = None
    /\ pending w = None
    /\ bus_signals w = []
    /\ forall g, cancellable w = Some g -> handlers g = [].
Proof.
  destruct given as [[]|], ret as [e|p].
  all: usb_step.
  all: rewrite ?call_finish_unchecked.
  all: usb_step.
  all: rewrite ?filter_other_id.
  all: eexists; split; [reflexivity|]; simpl.
  all: split_and!; try done.
  all: by intros g [= <-].
Qed.

(** X11: the AcquireDevices method call can only complete with an error.
    [acquire_devices] asks for the reply type "o", which no reply body, a
    tuple, has; so GDBus turns the reply that carries the request path
    into G_IO_ERROR_INVALID_ARGUMENT, and [usb_call_returned] treats it
    like a failed call: it resolves the task with the error, drops the
    Response subscription and the handler on the cancellable and releases
    the call.  Response signals delivered afterwards reach nothing. *)
Theorem acquire_call_completion name given first_id requests locals random
    ret :
  exists w,
    (xdp_portal_usb_acquire_devices None requests locals random
       >> run [CallReturned ret])
      (idle name given first_id) = inr (tt, w)
    /\ resolutions (trace w) =
         [task_error (match ret with
                      | inl e => e
                      | inr _ => unexpected_reply_type "(o)" "o"
                      end)]
    /\ call w = None
    /\ bus_signals w = []
    /\ (forall g, cancellable w = Some g -> handlers g = [])
    /\ forall evs, Forall is_response evs -> run evs w = inr (tt, w).
Proof.
  destruct given as [b|]; usb_step.
  all: rewrite call_finish_object_path.
  all: usb_step.
  all: rewrite ?filter_other_id.
  all: eexists; split; [reflexivity|]; simpl.
  all: split_and!; try done.
  all: try by intros g [= <-].
  all: intros evs Hevs.
  all: by apply (unsubscribed_run PORTAL_OBJECT_PATH REQUEST_PATH_PREFIX).
Qed.

(** *** While the parent window is being exported *)

Lemma null_export_step random w :
  awaiting_export w ->
  exists w',
    step (ParentExported None {| options_slot := null;
                                 devices_slot := null |} random) w
      = inr (tt, w')
    /\ trace w' = trace w ++ [parent_export]
    /\ call w' = call w
    /\ awaiting_export w'.
Proof.
  intros ((c & Hcall & Hhandle) & Hpend & Hsubs & Hhs).
  destruct w as [call0 sender0 subs canc pend rt nid tr]; simpl in *; subst.
  destruct c as [sid rp hid par ph devs]; simpl in *; subst.
  usb_step. eexists. split; [reflexivity|]. simpl.
  split_and!; try done.
  unfold awaiting_export; simpl. split_and!; eauto.
Qed.

(** X12: an export callback that carries a NULL handle makes the call ask
    for the export again and send nothing.  From a call that awaits its
    parent handle, any events among which every export callback carries a
    NULL handle (its locals holding NULL) leave the call awaiting, and the
    trace gains exactly one [parent_export] per export callback: no
    subscription, no request, no resolution. *)
Theorem null_handle_asks_for_export_again evs : forall w,
  awaiting_export w ->
  Forall (fun ev => ~ is_export_callback ev \/ is_null_export ev = true) evs ->
  exists w',
    run evs w = inr (tt, w')
    /\ trace w' = trace w ++
         replicate (length (filter is_null_export evs)) parent_export
    /\ call w' = call w
    /\ awaiting_export w'.
Proof.
  induction evs as [|ev evs IH]; intros w Hw Hevs.
  - exists w. simpl. by rewrite app_nil_r.
  - apply Forall_cons in Hevs as [Hev Hevs].
    assert (exists w1, step ev w = inr (tt, w1)
              /\ trace w1 = trace w ++
                   (if is_null_export ev then [parent_export] else [])
              /\ call w1 = call w /\ awaiting_export w1)
      as (w1 & Hstep & Htr & Hc & Hw1).
    { destruct (is_null_export ev) eqn:Hnull.
      - destruct ev as [|[handle|] [[| |o] [| |d]] random|ret|path ps ls];
          try discriminate Hnull.
        destruct (null_export_step random w Hw) as (w1 & ? & ? & ? & ?).
        eauto 10.
      - destruct Hev as [Hev|Hev]; [|done].
        destruct (awaiting_export_step PORTAL_OBJECT_PATH
                    REQUEST_PATH_PREFIX ev w Hw Hev)
          as (w1 & ? & ? & ? & _ & _ & ? & _).
        exists w1. rewrite app_nil_r. eauto. }
    destruct (IH w1 Hw1 Hevs) as (w2 & Hrun & Htr2 & Hc2 & Hw2).
    exists w2. simpl. rewrite (bind_inr _ _ _ _ _ Hstep).
    split; [done|]. split; [|split; [congruence|done]].
    rewrite Htr2, Htr, <- app_assoc. f_equal.
    rewrite filter_cons. by destruct (is_null_export ev).
Qed.
End OutcomeFacts.

Lemma task_resolved_once_when_released_witness :
  accounted sample_cancelled
  /\ length (resolutions (trace sample_cancelled)) <= 1
  /\ (call sample_cancelled = None
      <-> length (resolutions (trace sample_cancelled)) = 1).
Proof.
  apply (task_resolved_once_when_released
           sample_object_path sample_request_prefix
           (AcquireDevicesCall None one_device wild_locals 7) "1_42"
           (Some false) 0 [Cancelled] sample_cancelled).
  vm_compute. reflexivity.
Defined.

Lemma null_handle_asks_for_export_again_witness :
  exists w',
    run sample_object_path sample_request_prefix
        [ParentExported None null_locals 3; Cancelled;
         ParentExported None null_locals 4]
        sample_awaiting = inr (tt, w')
    /\ trace w' = trace sample_awaiting ++ [parent_export; parent_export]
    /\ call w' = call sample_awaiting
    /\ awaiting_export w'.
Proof.
  apply (null_handle_asks_for_export_again
           sample_object_path sample_request_prefix
           [ParentExported None null_locals 3; Cancelled;
            ParentExported None null_locals 4]
           sample_awaiting).
  - unfold awaiting_export. vm_compute. split_and!; eauto.
    intros g Hg. by injection Hg as <-.
  - apply Forall_cons; split; [by right|].
    apply Forall_cons; split.
    { left. intros (handle & locals & random & Hev). discriminate. }
    apply Forall_cons; split; [by right|]. apply Forall_nil_2.
Defined.
